(** * Reinforcement-learning notebooks: Gridworld and Blackjack

    A shallow embedding of the two notebooks of the repository,

    - [ch03/gridworld-example.ipynb]: the transition tensor of the 5x5
      Gridworld, the linear system of the uniform-policy Bellman
      equation and the Bellman optimality residual;
    - [ch05/blackjack-prediction.ipynb]: one play of Blackjack, driven by
      a table policy for the player and a fixed strategy for the dealer;

    followed by the properties the specification states about them.

    Integers are [Z]: Python integers are unbounded, and the 64-bit
    integers of NumPy and numba stay far from their bounds on the states,
    cards and hands the notebooks compute with (where a statement ranges
    over all 64-bit integers, the wrap-around is written out). Array
    entries are exact rationals [Q], arrays are lists read and written by
    index with
    NumPy's conventions (a negative index counts from the end, an index
    out of range raises [IndexError], modelled by [None]), and Python
    dictionaries are association lists kept in insertion order, which is
    the order in which the notebook iterates over them. *)

From Stdlib Require Import ZArith QArith String List Lia Bool.
From stdpp Require Import base option numbers strings list.

Local Open Scope Z_scope.

(** ** Python containers *)

Module Py.

(** [range(n)] *)
Definition range (n : nat) : list Z := map Z.of_nat (seq 0 n).

(** A dictionary, as the list of its items in insertion order. *)
Section Dict.
Context {K V : Type} `{EqDecision K}.

Fixpoint dict_get (d : list (K * V)) (k : K) : option V :=
  match d with
  | [] => None
  | (k', v) :: d' => if decide (k = k') then Some v else dict_get d' k
  end.

(** Iterating over a dictionary yields its keys. *)
Definition dict_keys (d : list (K * V)) : list K := map fst d.
End Dict.

(** [{x: ix for ix, x in enumerate(xs)}] (the keys of the notebook's
    lists are pairwise distinct, so no item is overwritten). *)
Definition index_map {K : Type} (xs : list K) : list (K * Z) :=
  imap (fun ix x => (x, Z.of_nat ix)) xs.

(** Normalisation of an index into a dimension of size [n]: [i] stands
    for itself when [0 <= i < n], for [n + i] when [-n <= i < 0], and
    raises [IndexError] otherwise. *)
Definition index (n : nat) (i : Z) : option nat :=
  if (0 <=? i) && (i <? Z.of_nat n) then Some (Z.to_nat i)
  else if (- Z.of_nat n <=? i) && (i <? 0) then Some (Z.to_nat (Z.of_nat n + i))
  else None.

(** [l[i]] *)
Definition item {A : Type} (l : list A) (i : Z) : option A :=
  i' ← index (length l) i; l !! i'.

(** A [for] loop whose body may raise: the state is threaded through the
    iterations, and the first error ends the loop. *)
Fixpoint for_each {A S : Type} (l : list A) (body : A -> S -> option S)
    (st : S) : option S :=
  match l with
  | [] => Some st
  | x :: l' => st' ← body x st; for_each l' body st'
  end.

(** Sum of [f i] for [i] in [l]. *)
Definition sumQ (l : list Z) (f : Z -> Q) : Q :=
  fold_right (fun i acc => (f i + acc)%Q) 0%Q l.

(** The same sum, kept in lowest terms at each step (used to evaluate
    sums of large fractions). *)
Definition sumQ_red (l : list Z) (f : Z -> Q) : Q :=
  fold_right (fun i acc => Qred (f i + acc)) 0%Q l.

End Py.

(** ** Gridworld *)

Module Gridworld.
Import Py.

(** A four-dimensional array [p[s', r, a, s]]. *)
Definition tensor := list (list (list (list Q))).

(** [np.zeros((d0, d1, d2, d3))] *)
Definition zeros (d0 d1 d2 d3 : nat) : tensor :=
  replicate d0 (replicate d1 (replicate d2 (replicate d3 0%Q))).

(** [p[i, j, k, l]] *)
Definition tget (p : tensor) (i j k l : Z) : option Q :=
  p1 ← item p i; p2 ← item p1 j; p3 ← item p2 k; item p3 l.

(** [p[i, j, k, l] = x] *)
Definition tset (p : tensor) (i j k l : Z) (x : Q) : option tensor :=
  i' ← index (length p) i;
  p1 ← p !! i';
  j' ← index (length p1) j;
  p2 ← p1 !! j';
  k' ← index (length p2) k;
  p3 ← p2 !! k';
  l' ← index (length p3) l;
  Some (<[i' := <[j' := <[k' := <[l' := x]> p3]> p2]> p1]> p).

(** The entry as a number, for statements about indices in range. *)
Definition entry (p : tensor) (i j k l : Z) : Q :=
  default 0%Q (tget p i j k l).

Definition n_actions : nat := 4.
Definition n_rewards : nat := 4.
Definition state_size : nat := 25.

Definition lower_bound : Z := 0.
(** [np.sqrt(state_size).astype(int) - 1] *)
Definition upper_bound : Z := Z.sqrt (Z.of_nat state_size) - 1.

Definition rewards : list Z := [0; 5; 10; -1].
Definition reward_map : list (Z * Z) := index_map rewards.

Definition actions : list string :=
  ["up"%string; "right"%string; "down"%string; "left"%string].
Definition actions_ix_map : list (string * Z) := index_map actions.

Definition action_map : list (string * (Z * Z)) :=
  [ ("up"%string, (-1, 0));
    ("right"%string, (0, 1));
    ("down"%string, (1, 0));
    ("left"%string, (0, -1)) ].

(** mapping from special states to rewards *)
Definition special_map : list (Z * Z) := [(1, 10); (3, 5)].

(** mapping from special states to terminal states *)
Definition special_states : list Z := [1; 3].
Definition special_state_map : list (Z * Z) := [(1, 21); (3, 13)].

Definition get_pos (ix : Z) : Z * Z :=
  let col := ix mod 5 in
  let row := ix / 5 in
  (row, col).

Definition get_state (position : Z * Z) : Z :=
  let '(row, col) := position in 5 * row + col.

Definition move (state : Z) (action : string) : option (Z * Z) :=
  let position := get_pos state in
  d ← dict_get action_map action;
  Some (fst position + fst d, snd position + snd d).

(** The body of [is_out_of_bounds] does not read its parameter
    [position]: it reads the notebook's global [new_pos], which is the
    first argument here. *)
Definition is_out_of_bounds (new_pos : Z * Z) (position : Z * Z)
    (lb ub : Z) : bool :=
  ((fst new_pos <? lb) || (snd new_pos <? lb))
  || ((ub <? fst new_pos) || (ub <? snd new_pos)).

(** One iteration of the innermost loop, for the state [s], the reward
    [r] and the action [action]. The [print] of the notebook is output
    only and is left out. *)
Definition cell_update (s r : Z) (action : string) (p : tensor)
    : option tensor :=
  let curr_pos := get_pos s in
  a_pos ← dict_get actions_ix_map action;
  r_pos ← dict_get reward_map r;
  new_pos ← move s action;
  let new_state := get_state new_pos in
  '(val, new_state) ←
    (if bool_decide (s ∈ special_states) then
       r_special ← dict_get special_map s;
       let val := if r =? r_special then 1%Q else 0%Q in
       new_state ← dict_get special_state_map s;
       Some (val, new_state)
     else if is_out_of_bounds new_pos new_pos 0 4 then
       let val := if r =? -1 then 1%Q else 0%Q in
       Some (val, s)
     else if r =? 0 then Some (1%Q, new_state)
     else Some (0%Q, new_state));
  tset p new_state r_pos a_pos s val.

(** The three nested loops over states, rewards and actions. *)
Definition p_gridworld_loop : option tensor :=
  for_each (range state_size) (fun s =>
    for_each (dict_keys reward_map) (fun r =>
      for_each (dict_keys action_map) (fun action =>
        cell_update s r action)))
    (zeros state_size n_rewards n_actions state_size).

(** [p.sum(axis=0, keepdims=True).sum(axis=1, keepdims=True)] at
    [0, 0, a, s]: the total mass of the slice of action [a] and state
    [s]. *)
Definition slice_sum (p : tensor) (a s : Z) : Q :=
  sumQ (range n_rewards) (fun r =>
    sumQ (range state_size) (fun s' => entry p s' r a s)).

(** [x[i]] and [m[i, j]] as numbers *)
Definition vget (x : list Q) (i : Z) : Q := default 0%Q (item x i).
Definition mget (m : list (list Q)) (i j : Z) : Q :=
  default 0%Q (row ← item m i; item row j).

(** The array [p.sum(axis=0, keepdims=True).sum(axis=1, keepdims=True)],
    of shape (1, 1, 4, 25), without its two leading axes of length 1. *)
Definition slice_sums (p : tensor) : list (list Q) :=
  map (fun a => map (fun s => slice_sum p a s) (range state_size))
      (range n_actions).

(** [p / p.sum(axis=0, keepdims=True).sum(axis=1, keepdims=True)]: the
    array of sums is computed once and broadcast over the next states
    and the rewards. On exact rationals a division by zero gives 0,
    where NumPy gives nan; no slice of the notebook's tensor has sum
    zero. *)
Definition normalize (p : tensor) : tensor :=
  let sums := slice_sums p in
  imap (fun s' p1 =>
    imap (fun r p2 =>
      imap (fun a p3 =>
        imap (fun s x => (x / mget sums (Z.of_nat a) (Z.of_nat s))%Q) p3)
        p2) p1) p.

Definition p_gridworld_run : option tensor :=
  normalize <$> p_gridworld_loop.

(** The tensor the notebook holds after the construction cell
    ([p_gridworld_run_value] below: the cell raises no error). *)
Definition p_gridworld : tensor :=
  Eval vm_compute in
    default (zeros state_size n_rewards n_actions state_size) p_gridworld_run.

(** [rewards[r]], as an array entry *)
Definition reward (r : Z) : Q := inject_Z (default 0 (item rewards r)).

(** [b = (p_gridworld * rewards[None, :, None, None])
           .sum(axis=0).sum(axis=0).sum(axis=0) / 4]:
    the sums run over the next state, then the reward, then the action. *)
Definition b : list Q :=
  map (fun s =>
         (sumQ (range n_actions) (fun a =>
            sumQ (range n_rewards) (fun r =>
              sumQ (range state_size) (fun s' =>
                entry p_gridworld s' r a s * reward r))) / 4)%Q)
      (range state_size).

Definition γ : Q := 9 # 10.

(** [np.eye(state_size)] *)
Definition I (i j : Z) : Q := if i =? j then 1%Q else 0%Q.

(** [p_gridworld.sum(axis=1).sum(axis=1)] at [s', s]: the sums run over
    the reward, then the action. *)
Definition p_next (s' s : Z) : Q :=
  sumQ (range n_actions) (fun a =>
    sumQ (range n_rewards) (fun r => entry p_gridworld s' r a s)).

(** [A = I - γ / 4 * p_gridworld.sum(axis=1).sum(axis=1).T] *)
Definition A : list (list Q) :=
  map (fun i =>
         map (fun j => (I i j - γ / 4 * p_next j i)%Q) (range state_size))
      (range state_size).

(** [A @ x] at row [i] *)
Definition matvec_at (m : list (list Q)) (x : list Q) (i : Z) : Q :=
  sumQ (range state_size) (fun j => (mget m i j * vget x j)%Q).

(** What [np.linalg.solve(m, y)] returns: a vector [x] with [m @ x = y]. *)
Definition solves (m : list (list Q)) (y x : list Q) : Prop :=
  length x = state_size /\
  forall i, 0 <= i < Z.of_nat state_size -> (matvec_at m x i == vget y i)%Q.

(** [np.linalg.solve] in exact arithmetic, by Gauss-Jordan elimination on
    the augmented rows [m[i] ++ [y[i]]]; [None] stands for
    [LinAlgError] (singular matrix). *)
Definition row_scale (c : Q) (row : list Q) : list Q :=
  map (fun x => Qred (c * x)) row.
Definition row_sub (c : Q) (piv row : list Q) : list Q :=
  zip_with (fun x y => Qred (x - c * y)) row piv.

Fixpoint find_pivot (col : nat) (rows : list (list Q))
    : option (list Q * list (list Q)) :=
  match rows with
  | [] => None
  | row :: rest =>
      if Qeq_bool (default 0%Q (row !! col)) 0 then
        '(piv, others) ← find_pivot col rest; Some (piv, row :: others)
      else Some (row, rest)
  end.

Fixpoint eliminate (n col : nat) (done todo : list (list Q))
    : option (list (list Q)) :=
  match n with
  | O => Some done
  | S n' =>
      '(piv, others) ← find_pivot col todo;
      let piv := row_scale (/ default 0%Q (piv !! col)) piv in
      let clear row := row_sub (default 0%Q (row !! col)) piv row in
      eliminate n' (S col) (map clear done ++ [piv]) (map clear others)
  end.

Definition linalg_solve (m : list (list Q)) (y : list Q) : option (list Q) :=
  rows ← eliminate (length m) 0 [] (zip_with (fun row c => row ++ [c]) m y);
  Some (map (fun row => default 0%Q (last row)) rows).

(** The value function of the uniform policy, [np.linalg.solve(A, b)]. *)
Definition v_pi : list Q :=
  Eval vm_compute in default [] (linalg_solve A b).

(** [bellman_optimality(vs)] at state [s]: the products are summed over
    the next state, then over the reward, and the maximum is taken over
    the actions (of which there is at least one). *)
Definition action_value (vs : list Q) (a s : Z) : Q :=
  sumQ (range n_rewards) (fun r =>
    sumQ (range state_size) (fun s' =>
      ((reward r + γ * vget vs s') * entry p_gridworld s' r a s)%Q)).

Definition Qmax (x y : Q) : Q := if Qle_bool x y then y else x.

Definition bellman_optimality (vs : list Q) : list Q :=
  imap (fun s v =>
          let s := Z.of_nat s in
          let rhs := fold_right (fun a acc => Qmax (action_value vs a s) acc)
                       (action_value vs 0 s) (range n_actions) in
          (v - rhs)%Q) vs.

(** *** Checks over the index ranges

    Boolean forms of the statements proved about the tensor, run over
    all indices. *)

(** The slice of action [a] and state [s] is 1 at [(s', r)] and 0 at
    every other (next state, reward) pair. *)
Definition point_mass (p : tensor) (a s s' r : Z) : bool :=
  forallb (fun s'' =>
    forallb (fun r'' =>
      Qeq_bool (entry p s'' r'' a s)
               (if (s'' =? s') && (r'' =? r) then 1 else 0))
      (range n_rewards))
    (range state_size).

(** The first (next state, reward) pair of a slice that holds a 1. *)
Definition slice_point (p : tensor) (a s : Z) : option (Z * Z) :=
  List.find (fun sr => Qeq_bool (entry p (fst sr) (snd sr) a s) 1)
    (s' ← range state_size; r ← range n_rewards; [(s', r)]).

Definition in_range (n : nat) (z : Z) : bool :=
  (0 <=? z) && (z <? Z.of_nat n).

Definition distribution_check (p : tensor) : bool :=
  forallb (fun a =>
    forallb (fun s =>
      match slice_point p a s with
      | Some (s', r) =>
          in_range state_size s' && in_range n_rewards r
          && point_mass p a s s' r && Qeq_bool (slice_sum p a s) 1
      | None => false
      end) (range state_size)) (range n_actions).

Definition boundary_check (p : tensor) : bool :=
  forallb (fun s =>
    forallb (fun action =>
      match move s action, dict_get actions_ix_map action,
            dict_get reward_map (-1) with
      | Some new_pos, Some a_pos, Some r_pos =>
          implb (negb (bool_decide (s ∈ special_states))
                 && is_out_of_bounds new_pos new_pos 0 4)
                (point_mass p a_pos s s r_pos)
      | _, _, _ => false
      end) (dict_keys action_map)) (range state_size).

Definition solves_check (m : list (list Q)) (y x : list Q) : bool :=
  bool_decide (length x = state_size)
  && forallb (fun i =>
       Qeq_bool (sumQ_red (range state_size) (fun j => mget m i j * vget x j)%Q)
                (vget y i))
       (range state_size).

End Gridworld.

(** ** Blackjack *)

Module Blackjack.
Import Py.

(** The result of a call that may raise. *)
Inductive py (A : Type) : Type :=
| ok (a : A)
| index_error.
Arguments ok {A} a.
Arguments index_error {A}.

(** [deck_probs] is a global that [draw_card] reads. The notebook
    writes it once, as [n_vals / n_vals.sum()] with
    [n_vals = jnp.ones(10).at[-1].set(4)] (in a cell left commented out,
    and again inside [draw_cards]): ten categories, the last one four
    times as likely as each of the others. *)
Definition n_vals : list Q := replicate 9 1%Q ++ [4%Q].
Definition deck_probs : list Q :=
  map (fun n => (n / sumQ (range (length n_vals)) (fun i =>
                       default 0%Q (item n_vals i)))%Q) n_vals.

(** [np.random.multinomial(1, deck_probs).argmax()] is the position of
    the single 1 in a one-hot sample, that is the 0-based index of the
    category drawn: [c] can come out when [deck_probs[c] > 0]. *)
Definition can_draw (c : Z) : Prop :=
  exists q, item deck_probs c = Some q /\ (0 < q)%Q.

(** The random generator is a sequence [draws] of the values returned by
    the successive calls of [draw_card], and the number [k] of calls made
    so far. *)
Definition draw_card (draws : nat -> Z) (k : nat) : Z * nat :=
  (draws k, S k).

(** Dealer's fixed strategy. [None]: the loop is still running when
    [fuel] iterations are spent. *)
Fixpoint dealer_strategy (fuel : nat) (draws : nat -> Z) (value_cards : Z)
    (k : nat) : option (Z * nat) :=
  if value_cards <? 17 then
    match fuel with
    | O => None
    | S fuel' =>
        let '(card, k) := draw_card draws k in
        dealer_strategy fuel' draws (value_cards + card) k
    end
  else Some (value_cards, k).

(** Update the player's hand value. *)
Definition update_player_card (current_value new_card : Z) : Z * bool :=
  let has_usable_ace := false in
  let '(new_card, has_usable_ace) :=
    if (new_card =? 1) && (current_value <=? 10) then (11, true)
    else (new_card, has_usable_ace) in
  let new_value := current_value + new_card in
  (new_value, has_usable_ace).

(** The variables of [blackjack] that its hit loop reads and writes, and
    the number of cards drawn so far. *)
Record game : Type := {
  player_value_cards : Z;
  has_usable_ace : bool;
  hist_reward : list Z;
  hist_state : list (Z * bool);
  hist_action : list Z;
  n_drawn : nat
}.

(** [policy[player_value_cards - 12][1]] *)
Definition policy_stick (policy : list (list Q)) (player_value_cards : Z)
    : option Q :=
  row ← item policy (player_value_cards - 12); item row 1.

(** Hit until you reach a 'stick' state or you lose (value of cards over
    21). *)
Fixpoint hit_loop (fuel : nat) (draws : nat -> Z) (policy : list (list Q))
    (g : game) : option (py game) :=
  match policy_stick policy (player_value_cards g) with
  | None => Some index_error
  | Some stick =>
      if Qeq_bool stick 1 then Some (ok g)
      else
        match fuel with
        | O => None
        | S fuel' =>
            let '(new_card, k) := draw_card draws (n_drawn g) in
            let '(value, new_has_usable_ace) :=
              update_player_card (player_value_cards g) new_card in
            let g' :=
              {| player_value_cards := value;
                 has_usable_ace := has_usable_ace g || new_has_usable_ace;
                 hist_reward := hist_reward g ++ [0];
                 hist_state :=
                   hist_state g
                   ++ [(value, has_usable_ace g || new_has_usable_ace)];
                 hist_action := hist_action g ++ [0];
                 n_drawn := k |} in
            if 21 <? value then Some (ok g') else hit_loop fuel' draws policy g'
        end
  end.

(** What [blackjack] returns: the bare reward of its first [return], or
    the pair [reward, hist_reward] of its last one. *)
Inductive retval : Type :=
| ret_reward (reward : Z)
| ret_pair (reward : Z) (hist_reward : list Z).

Definition retval_reward (v : retval) : Z :=
  match v with
  | ret_reward reward => reward
  | ret_pair reward _ => reward
  end.

(** The variables as they stand when the hit loop is entered. *)
Definition start (player_value_cards : Z) (has_usable_ace : bool) : game :=
  let reward := 0 in
  {| player_value_cards := player_value_cards;
     has_usable_ace := has_usable_ace;
     hist_reward := [reward];
     hist_state := [(player_value_cards, has_usable_ace)];
     hist_action := [0];
     n_drawn := O |}.

(** The first test of [blackjack]: the player has 21 and the dealer has
    not. *)
Definition natural (player_value_cards : Z) (dealer_cards : list Z) : bool :=
  (player_value_cards =? 21) && negb (foldr Z.add 0 dealer_cards =? 21).

(** The reward given once both hands are played. *)
Definition final_reward (player_value_cards dealer_value_cards : Z) : Z :=
  if 21 <? player_value_cards then -1
  else if 21 <? dealer_value_cards then 1
  else if dealer_value_cards <? player_value_cards then 1 else 0.

(** The end of [blackjack]: the reward is computed, appended to
    [hist_reward], and returned with it. *)
Definition settle (g : game) (dealer_value_cards : Z) : retval :=
  let reward := final_reward (player_value_cards g) dealer_value_cards in
  ret_pair reward (hist_reward g ++ [reward]).

(** Evaluate a single play of Blackjack. *)
Definition blackjack (fuel : nat) (draws : nat -> Z)
    (player_value_cards : Z) (dealer_cards : list Z)
    (policy : list (list Q)) (has_usable_ace : bool) : option (py retval) :=
  let g := start player_value_cards has_usable_ace in
  let dealer_value_cards := foldr Z.add 0 dealer_cards in
  (* Stick if you have 21 *)
  if (player_value_cards =? 21) && negb (dealer_value_cards =? 21) then
    let reward := 1 in
    Some (ok (ret_reward reward))
  else
    match hit_loop fuel draws policy g with
    | None => None
    | Some index_error => Some index_error
    | Some (ok g) =>
        match dealer_strategy fuel draws (foldr Z.add 0 dealer_cards)
                (n_drawn g) with
        | None => None
        | Some (dealer_value_cards, _) =>
            Some (ok (settle g dealer_value_cards))
        end
    end.

(** The policy that sticks if the player's sum is 20 or 21, and
    otherwise hits: [np.zeros((10, 2))] with column 0 of the first eight
    rows and column 1 of the last two rows set to 1. *)
Definition policy : list (list Q) :=
  replicate 8 [1%Q; 0%Q] ++ replicate 2 [0%Q; 1%Q].

(** *** Predicates used in the statements *)

(** The policy marks the stick action for the hand value [value]. *)
Definition sticks (policy : list (list Q)) (value : Z) : Prop :=
  exists stick, policy_stick policy value = Some stick /\ (stick == 1)%Q.

(** What the hit loop maintains: [hist_state] has one entry per card
    drawn after the initial one, its last entry is the current hand, and
    no earlier entry has value 20 or 21. *)
Record hist_inv (g : game) : Prop := {
  hist_length : length (hist_state g) = S (n_drawn g);
  hist_last :
    hist_state g !! n_drawn g = Some (player_value_cards g, has_usable_ace g);
  hist_before :
    forall (i : nat) (value : Z) (ace : bool),
      (i < n_drawn g)%nat -> hist_state g !! i = Some (value, ace) ->
      value <> 20 /\ value <> 21
}.

End Blackjack.


From Stdlib Require Import Qabs Lqa.

Local Open Scope Z_scope.

(** ** Gridworld: the optimal value function and further checks *)

Module GridworldValues.
Import Py Gridworld.

(** The value of state A under an optimal policy: +10, then four moves
    back up from the landing cell, for ever. *)
Definition v_A : Q := 10 / (1 - γ ^ 5).

(** The value of state B: +5, then four moves from its landing cell to
    state A. *)
Definition v_B : Q := 5 + γ ^ 5 * v_A.

(** The candidate optimal value function: a state other than B and its
    right neighbour is worth [v_A] discounted by its distance in moves
    to state A (row 0, column 1). *)
Definition v_opt : list Q :=
  map (fun s =>
         if s =? 3 then v_B
         else if s =? 4 then γ * v_B
         else let '(row, col) := get_pos s in
              γ ^ (row + Z.abs (col - 1)) * v_A)%Q
      (range state_size).

(** [action_value], with every partial sum in lowest terms. *)
Definition action_value_red (vs : list Q) (a s : Z) : Q :=
  sumQ_red (range n_rewards) (fun r =>
    sumQ_red (range state_size) (fun s' =>
      ((reward r + γ * vget vs s') * entry p_gridworld s' r a s)%Q)).

Definition optimality_check (vs : list Q) : bool :=
  bool_decide (length vs = state_size)
  && forallb (fun s =>
       Qeq_bool (vget vs s)
         (fold_right (fun a acc => Qmax (action_value_red vs a s) acc)
            (action_value_red vs 0 s) (range n_actions)))
       (range state_size).

(** The moves of a state that leave the grid. *)
Definition off_grid_moves (s : Z) : list string :=
  List.filter (fun action =>
                 match move s action with
                 | Some new_pos => is_out_of_bounds new_pos new_pos 0 4
                 | None => false
                 end) actions.

Definition in_grid_check (p : tensor) : bool :=
  forallb (fun s =>
    forallb (fun action =>
      match move s action, dict_get actions_ix_map action,
            dict_get reward_map 0 with
      | Some new_pos, Some a_pos, Some r_pos =>
          implb (negb (bool_decide (s ∈ special_states))
                 && negb (is_out_of_bounds new_pos new_pos 0 4))
                (in_range state_size (get_state new_pos)
                 && point_mass p a_pos s (get_state new_pos) r_pos)
      | _, _, _ => false
      end) (dict_keys action_map)) (range state_size).

(** The columns of a matrix of weights are non-negative and sum to
    [total]. *)
Definition columns_check (w : Z -> Z -> Q) (total : Q) : bool :=
  forallb (fun s =>
    Qeq_bool (sumQ (range state_size) (fun s' => w s' s)) total
    && forallb (fun s' => Qle_bool 0 (w s' s)) (range state_size))
    (range state_size).

Definition entry_check (p : tensor) : bool :=
  forallb (fun a => forallb (fun s =>
    Qeq_bool (slice_sum p a s) 1
    && forallb (fun r => forallb (fun s' => Qle_bool 0 (entry p s' r a s))
         (range state_size)) (range n_rewards))
    (range state_size)) (range n_actions).

Definition expected_reward_check (y : list Q) : bool :=
  forallb (fun s =>
    Qeq_bool (vget y s)
      (if s =? 1 then 10
       else if s =? 3 then 5
       else - (inject_Z (Z.of_nat (length (off_grid_moves s))) / 4))%Q)
    (range state_size).

(** *** 64-bit integers

    [get_pos] returns an int64 array, so the product and the sum of
    [get_state] on its result are int64 operations: a result outside
    [-2^63, 2^63) wraps modulo [2^64]. *)
Definition int64_wrap (z : Z) : Z := (z + 2 ^ 63) mod 2 ^ 64 - 2 ^ 63.

Definition get_state_int64 (position : Z * Z) : Z :=
  let '(row, col) := position in int64_wrap (int64_wrap (5 * row) + col).

End GridworldValues.

(** ** Blackjack: the cards of a run and the initial deal *)

Module BlackjackDeal.
Import Py Blackjack.

(** The total of the [n] cards drawn from the [k]-th call of
    [draw_card] on. *)
Definition drawn (draws : nat -> Z) (k n : nat) : Z :=
  foldr Z.add 0 (map draws (seq k n)).

(** What one run of the hit loop does to the variables of [blackjack]. *)
Record hit_run (g0 g : game) (n : nat) : Prop := {
  run_drawn : n_drawn g = (n_drawn g0 + n)%nat;
  run_reward : hist_reward g = hist_reward g0 ++ replicate n 0;
  run_action : hist_action g = hist_action g0 ++ replicate n 0;
  run_state : length (hist_state g) = (length (hist_state g0) + n)%nat;
  run_ace : has_usable_ace g0 = true -> has_usable_ace g = true
}.

(** The initial deal is written with JAX. Its random generator is kept
    abstract: [split key] stands for the two keys of
    [jax.random.split(key)], and [choice key n i] for entry [i] of
    [jax.random.choice(key, 10, (n,), p=deck_probs)], a category index
    in 0..9. *)
Section Deal.
Context {key : Type}.
Variable split : key -> key * key.
Variable choice : key -> nat -> nat -> Z.

Definition draw_cards (k : key) (n : nat) : list Z :=
  map (choice k n) (seq 0 n).

(** The loop of [init_player_state]: while the value is below 12 a card
    is drawn, and counted as 11 (a usable ace) when the value is at most
    10 and the drawn index is 1, and as 1 otherwise. On booleans [*] is
    the conjunction and [|] the disjunction. The loop state is the value
    and the ace flag only: the body is traced once, with the key bound
    before the loop, and its last line rebinds a Python variable that is
    not part of the loop state; so every iteration draws with the same
    key [new_key], and draws the same card. [None]: still running when
    [fuel] iterations are spent. *)
Fixpoint init_loop (fuel : nat) (value : Z) (usable_ace : bool)
    (new_key : key) : option (Z * bool) :=
  if value <? 12 then
    match fuel with
    | O => None
    | S fuel' =>
        let new_card := hd 0 (draw_cards new_key 1) in
        let '(new_card, new_ace) :=
          if (value <=? 10) && (new_card =? 1) then (11, true)
          else (1, false) in
        init_loop fuel' (value + new_card) (usable_ace || new_ace) new_key
    end
  else Some (value, usable_ace).

(** What the loop returns when it ends, given the card [new_card] that
    its key draws. *)
Definition init_loop_value (value : Z) (usable_ace : bool) (new_card : Z)
    : Z * bool :=
  if 12 <=? value then (value, usable_ace)
  else if (value <=? 10) && (new_card =? 1) then (value + 11, true)
  else (12, usable_ace).

(** Random initialisation of a hand: two cards are drawn (indices plus
    one, so values 1..10), an ace among them counts 11, and the loop
    above runs until the value is at least 12, with the second key of
    [jax.random.split(key)]. On booleans [+] is the disjunction. Returns
    the two cards, the value and the ace flag. *)
Definition init_player_state (fuel : nat) (k : key)
    : option (list Z * Z * bool) :=
  let init_cards := map (fun c => c + 1) (draw_cards k 2) in
  let usable_ace :=
    (default 0 (item init_cards 0) =? 1)
    || (default 0 (item init_cards 1) =? 1) in
  let value_cards :=
    foldr Z.add 0 init_cards + 10 * Z.b2z usable_ace in
  '(value_cards, usable_ace) ←
    init_loop fuel value_cards usable_ace (snd (split k));
  Some (init_cards, value_cards, usable_ace).

(** Create initial game of blackjack: the array (sum of the player's
    hand, whether the player holds a usable ace, the dealer's showing
    card) and the initial value of the dealer's hand. *)
Definition init_game (fuel : nat) (k : key) : option (list Z * Z) :=
  let '(key_player, key_dealer) := split k in
  '(_, value_player, ace_player) ← init_player_state fuel key_player;
  '(dealer_cards, value_dealer, _) ← init_player_state fuel key_dealer;
  let dealer_card := default 0 (item dealer_cards 0) in
  Some ([value_player; Z.b2z ace_player; dealer_card],
        value_dealer).

End Deal.

End BlackjackDeal.

(** * Properties *)

(** ** Ranges, sums and bounded checks *)

Module PyFacts.
Import Py.

Lemma range_spec (n : nat) (z : Z) : In z (range n) <-> 0 <= z < Z.of_nat n.
Proof.
  unfold range. rewrite in_map_iff. split.
  - intros (i & <- & Hi). apply in_seq in Hi. lia.
  - intros Hz. exists (Z.to_nat z). split; [lia|]. apply in_seq. lia.
Qed.

(** A check run over [range n] holds at every index in range. *)
Lemma forallb_range (n : nat) (f : Z -> bool) :
  forallb f (range n) = true ->
  forall z, 0 <= z < Z.of_nat n -> f z = true.
Proof.
  intros H z Hz. rewrite forallb_forall in H. apply H, range_spec, Hz.
Qed.

Lemma length_range (n : nat) : length (range n) = n.
Proof. unfold range. rewrite length_map. apply length_seq. Qed.

Lemma item_map_range {A : Type} (f : Z -> A) (n : nat) (i : Z) :
  0 <= i < Z.of_nat n -> item (map f (range n)) i = Some (f i).
Proof.
  intros Hi. unfold item, index. rewrite length_map, length_range.
  replace ((0 <=? i) && (i <? Z.of_nat n)) with true
    by (symmetry; apply andb_true_iff; lia).
  cbn [mbind option_bind]. unfold range.
  rewrite !list_lookup_fmap, lookup_seq_lt by lia.
  cbn. f_equal. f_equal. lia.
Qed.

(** *** Algebra of finite sums *)

Lemma sumQ_nil (f : Z -> Q) : sumQ [] f = 0%Q.
Proof. reflexivity. Qed.

Lemma sumQ_cons (x : Z) (l : list Z) (f : Z -> Q) :
  sumQ (x :: l) f = (f x + sumQ l f)%Q.
Proof. reflexivity. Qed.

Lemma sumQ_ext (l : list Z) (f g : Z -> Q) :
  (forall i, In i l -> f i == g i)%Q -> (sumQ l f == sumQ l g)%Q.
Proof.
  induction l as [|x l IH]; intros H; [reflexivity|].
  rewrite !sumQ_cons, (H x) by (left; reflexivity).
  rewrite IH; [reflexivity|]. intros i Hi. apply H. right. exact Hi.
Qed.

Lemma sumQ_plus (l : list Z) (f g : Z -> Q) :
  (sumQ l (fun i => f i + g i) == sumQ l f + sumQ l g)%Q.
Proof.
  induction l as [|x l IH]; [rewrite !sumQ_nil; ring|].
  rewrite !sumQ_cons, IH. ring.
Qed.

Lemma sumQ_scale (l : list Z) (c : Q) (f : Z -> Q) :
  (sumQ l (fun i => c * f i) == c * sumQ l f)%Q.
Proof.
  induction l as [|x l IH]; [rewrite !sumQ_nil; ring|].
  rewrite !sumQ_cons, IH. ring.
Qed.

Lemma sumQ_zero (l : list Z) : (sumQ l (fun _ => 0) == 0)%Q.
Proof.
  induction l as [|x l IH]; [reflexivity|]. rewrite sumQ_cons, IH. ring.
Qed.

(** Two nested sums may be exchanged. *)
Lemma sumQ_swap (l1 l2 : list Z) (f : Z -> Z -> Q) :
  (sumQ l1 (fun i => sumQ l2 (fun j => f i j))
   == sumQ l2 (fun j => sumQ l1 (fun i => f i j)))%Q.
Proof.
  induction l1 as [|x l1 IH].
  - rewrite sumQ_nil. symmetry. apply sumQ_zero.
  - rewrite sumQ_cons, IH. symmetry.
    rewrite <- sumQ_plus. apply sumQ_ext. intros j _.
    rewrite sumQ_cons. reflexivity.
Qed.

(** A sum against a row of the identity picks one term. *)
Lemma sumQ_delta (l : list Z) (s : Z) (f : Z -> Q) :
  List.NoDup l -> In s l ->
  (sumQ l (fun j => (if s =? j then 1 else 0) * f j) == f s)%Q.
Proof.
  induction l as [|x l IH]; intros Hnd Hin; [destruct Hin|].
  apply NoDup_cons_iff in Hnd as [Hx Hnd]. rewrite sumQ_cons.
  destruct (Z.eqb_spec s x) as [-> | Hne].
  - rewrite (sumQ_ext l _ (fun _ => 0%Q)).
    + rewrite sumQ_zero. ring.
    + intros i Hi. destruct (Z.eqb_spec x i) as [-> | _]; [contradiction|ring].
  - destruct Hin as [-> | Hin]; [contradiction|].
    rewrite IH by assumption. ring.
Qed.

Lemma sumQ_red_eq (l : list Z) (f : Z -> Q) : (sumQ_red l f == sumQ l f)%Q.
Proof.
  induction l as [|x l IH]; [reflexivity|].
  rewrite sumQ_cons, <- IH. apply Qred_correct.
Qed.

Lemma NoDup_range (n : nat) : List.NoDup (range n).
Proof.
  unfold range. apply List.NoDup_map_inv with (f := Z.to_nat).
  rewrite map_map, (map_ext _ (fun x => x)), map_id by (intros; lia).
  apply List.seq_NoDup.
Qed.

End PyFacts.

(** ** Gridworld: the transition tensor *)

Module GridworldFacts.
Import Py PyFacts Gridworld.

Lemma dict_get_keys {K V : Type} `{EqDecision K} (d : list (K * V)) k v :
  dict_get d k = Some v -> In k (dict_keys d).
Proof.
  induction d as [|[k' v'] d IH]; cbn; [discriminate|].
  destruct (decide (k = k')) as [-> | _]; [left; reflexivity|].
  intros H. right. apply IH, H.
Qed.

(** The test made on the moved position: a coordinate below [lb] or
    above [ub]. *)
Lemma is_out_of_bounds_spec (new_pos position : Z * Z) (lb ub : Z) :
  is_out_of_bounds new_pos position lb ub = true <->
  fst new_pos < lb \/ snd new_pos < lb \/ ub < fst new_pos \/ ub < snd new_pos.
Proof.
  unfold is_out_of_bounds. rewrite !orb_true_iff, !Z.ltb_lt. tauto.
Qed.

(** The construction cell runs without error, and [p_gridworld] is its
    result. *)
Lemma p_gridworld_run_value : p_gridworld_run = Some p_gridworld.
Proof. vm_compute. reflexivity. Qed.

Lemma point_mass_spec (p : tensor) (a s s' r s'' r'' : Z) :
  point_mass p a s s' r = true ->
  0 <= s'' < 25 -> 0 <= r'' < 4 ->
  (entry p s'' r'' a s == if (s'' =? s') && (r'' =? r) then 1 else 0)%Q.
Proof.
  intros H Hs Hr. unfold point_mass in H.
  apply (forallb_range _ _ H) in Hs. apply (forallb_range _ _ Hs) in Hr.
  apply Qeq_bool_eq, Hr.
Qed.

Lemma special_A_check :
  forallb (fun a => point_mass p_gridworld a 1 21 2) (range n_actions) = true.
Proof. vm_compute. reflexivity. Qed.

(** C6. In state A (index 1), under each of the four actions, the
    tensor puts probability 1 on the pair (next state 21, reward +10) and
    probability 0 on every other (next state, reward) pair. *)
Theorem special_A_transition (a s' r : Z) :
  0 <= a < 4 -> 0 <= s' < 25 -> 0 <= r < 4 ->
  (entry p_gridworld s' r a 1
   == if bool_decide (s' = 21 /\ item rewards r = Some 10)%Z then 1 else 0)%Q.
Proof.
  intros Ha Hs Hr.
  rewrite (point_mass_spec _ _ _ _ _ _ _
             (forallb_range _ _ special_A_check a Ha) Hs Hr).
  assert (Hr' : r = 0 \/ r = 1 \/ r = 2 \/ r = 3) by lia.
  destruct (Z.eqb_spec s' 21) as [-> | Hne].
  - destruct Hr' as [-> | [-> | [-> | ->]]]; reflexivity.
  - rewrite bool_decide_eq_false_2; [reflexivity|]. intros [? _]. contradiction.
Qed.

Lemma special_A_transition_witness :
  (entry p_gridworld 21 2 0 1 == 1)%Q.
Proof.
  exact (special_A_transition 0 21 2 ltac:(lia) ltac:(lia) ltac:(lia)).
Defined.

Lemma distribution_check_holds : distribution_check p_gridworld = true.
Proof. vm_compute. reflexivity. Qed.

Lemma p_gridworld_loop_value : p_gridworld_loop = Some p_gridworld.
Proof. vm_compute. reflexivity. Qed.

Lemma normalize_fixes_p_gridworld : normalize p_gridworld = p_gridworld.
Proof. vm_compute. reflexivity. Qed.

Lemma in_range_spec (n : nat) (z : Z) :
  in_range n z = true <-> 0 <= z < Z.of_nat n.
Proof. unfold in_range. rewrite andb_true_iff. lia. Qed.

Lemma distribution_check_spec (p : tensor) (a s : Z) :
  distribution_check p = true ->
  0 <= a < 4 -> 0 <= s < 25 ->
  (exists s' r : Z,
      0 <= s' < 25 /\ 0 <= r < 4 /\
      forall s'' r'' : Z, 0 <= s'' < 25 -> 0 <= r'' < 4 ->
        (entry p s'' r'' a s
         == if bool_decide (s'' = s' /\ r'' = r)%Z then 1 else 0)%Q) /\
  (slice_sum p a s == 1)%Q.
Proof.
  unfold distribution_check. intros H Ha Hs.
  apply (forallb_range _ _ H) in Ha. apply (forallb_range _ _ Ha) in Hs.
  destruct (slice_point p a s) as [[s' r]|]; [|discriminate].
  apply andb_true_iff in Hs as [Hs Hsum].
  apply andb_true_iff in Hs as [Hs Hpt].
  apply andb_true_iff in Hs as [Hs' Hr].
  apply in_range_spec in Hs', Hr. split.
  - exists s', r. split; [exact Hs'|]. split; [exact Hr|].
    intros s'' r'' Hs'' Hr''.
    rewrite (point_mass_spec _ _ _ _ _ _ _ Hpt Hs'' Hr'').
    destruct (Z.eqb_spec s'' s') as [-> | Hne];
      destruct (Z.eqb_spec r'' r) as [-> | Hne'];
      cbn [andb]; case_bool_decide; try reflexivity; lia.
  - apply Qeq_bool_eq, Hsum.
Qed.

(** C10. The loop alone already produces the final tensor; in it every
    slice of an action [a] and a state [s] is 1 at exactly one
    (next state, reward) pair and 0 at the others, so it sums to 1; and
    the normalisation maps the tensor to itself. *)
Theorem p_gridworld_slices_are_distributions :
  p_gridworld_loop = Some p_gridworld /\
  normalize p_gridworld = p_gridworld /\
  forall a s : Z, 0 <= a < 4 -> 0 <= s < 25 ->
    (exists s' r : Z,
        0 <= s' < 25 /\ 0 <= r < 4 /\
        forall s'' r'' : Z, 0 <= s'' < 25 -> 0 <= r'' < 4 ->
          (entry p_gridworld s'' r'' a s
           == if bool_decide (s'' = s' /\ r'' = r)%Z then 1 else 0)%Q) /\
    (slice_sum p_gridworld a s == 1)%Q.
Proof.
  split; [apply p_gridworld_loop_value|].
  split; [apply normalize_fixes_p_gridworld|].
  intros a s. apply distribution_check_spec, distribution_check_holds.
Qed.

Lemma p_gridworld_slices_are_distributions_witness :
  (slice_sum p_gridworld 0 0 == 1)%Q.
Proof.
  exact (proj2 (proj2 (proj2 p_gridworld_slices_are_distributions)
                  0 0 ltac:(lia) ltac:(lia))).
Defined.

Lemma boundary_check_holds : boundary_check p_gridworld = true.
Proof. vm_compute. reflexivity. Qed.

Lemma boundary_check_spec (p : tensor)
    (s : Z) (action : string) (new_pos : Z * Z) (a_pos r_pos : Z) :
  boundary_check p = true ->
  0 <= s < 25 ->
  ~ In s special_states ->
  move s action = Some new_pos ->
  is_out_of_bounds new_pos new_pos 0 4 = true ->
  dict_get actions_ix_map action = Some a_pos ->
  dict_get reward_map (-1) = Some r_pos ->
  (entry p s r_pos a_pos s == 1)%Q /\
  forall s' r : Z, 0 <= s' < 25 -> 0 <= r < 4 -> (s', r) <> (s, r_pos) ->
    (entry p s' r a_pos s == 0)%Q.
Proof.
  unfold boundary_check. intros H Hs Hsp Hmove Hout Ha Hr.
  apply (forallb_range _ _ H) in Hs as Hc.
  rewrite forallb_forall in Hc.
  assert (Hk : In action (dict_keys action_map)).
  { unfold move in Hmove.
    destruct (dict_get action_map action) as [d|] eqn:Hd; [|discriminate].
    apply (dict_get_keys _ _ _ Hd). }
  specialize (Hc action Hk). rewrite Hmove, Ha, Hr, Hout in Hc.
  rewrite bool_decide_eq_false_2 in Hc
    by (intros Hin; apply Hsp, list_elem_of_In, Hin).
  cbn [negb andb implb] in Hc.
  assert (Hrr : 0 <= r_pos < 4) by (vm_compute in Hr; injection Hr as <-; lia).
  split.
  - rewrite (point_mass_spec _ _ _ _ _ _ _ Hc Hs Hrr), !Z.eqb_refl. reflexivity.
  - intros s' r Hs' Hr' Hne.
    rewrite (point_mass_spec _ _ _ _ _ _ _ Hc Hs' Hr').
    destruct (Z.eqb_spec s' s) as [-> | ?]; [|reflexivity].
    destruct (Z.eqb_spec r r_pos) as [-> | ?]; [|reflexivity].
    contradiction.
Qed.

(** C1, amended. In every state other than the two special cells, an
    action whose move leaves the grid keeps the state: the slice is 1 at
    (next state [s], reward -1) and 0 at every other pair. *)
Theorem boundary_move_keeps_state
    (s : Z) (action : string) (new_pos : Z * Z) (a_pos r_pos : Z) :
  0 <= s < 25 ->
  ~ In s special_states ->
  move s action = Some new_pos ->
  is_out_of_bounds new_pos new_pos 0 4 = true ->
  dict_get actions_ix_map action = Some a_pos ->
  dict_get reward_map (-1) = Some r_pos ->
  (entry p_gridworld s r_pos a_pos s == 1)%Q /\
  forall s' r : Z, 0 <= s' < 25 -> 0 <= r < 4 -> (s', r) <> (s, r_pos) ->
    (entry p_gridworld s' r a_pos s == 0)%Q.
Proof. apply boundary_check_spec, boundary_check_holds. Qed.

Lemma boundary_move_keeps_state_witness :
  (entry p_gridworld 0 3 0 0 == 1)%Q.
Proof.
  refine (proj1 (boundary_move_keeps_state 0 "up" (-1, 0) 0 3 _ _ _ _ _ _));
    try reflexivity; try lia.
  intros [H | [H | []]]; discriminate H.
Defined.

(** C1 as stated does not hold: state A (index 1, top row) moved [up]
    leaves the grid, and the tensor gives probability 0, not 1, to
    staying in place with reward -1 (the mass is on state 21 with reward
    +10). *)
Lemma boundary_move_at_special_cell :
  ~ (forall (s : Z) (action : string) (new_pos : Z * Z) (a_pos r_pos : Z),
        0 <= s < 25 ->
        move s action = Some new_pos ->
        is_out_of_bounds new_pos new_pos 0 4 = true ->
        dict_get actions_ix_map action = Some a_pos ->
        dict_get reward_map (-1) = Some r_pos ->
        (entry p_gridworld s r_pos a_pos s == 1)%Q).
Proof.
  intros H.
  specialize (H 1 "up"%string (-1, 1) 0 3 ltac:(lia) eq_refl eq_refl eq_refl
                eq_refl).
  vm_compute in H. discriminate H.
Qed.

(** *** The linear system of the uniform policy *)

Lemma sumQ_scale_r (l : list Z) (c : Q) (f : Z -> Q) :
  (sumQ l (fun i => f i * c) == sumQ l f * c)%Q.
Proof.
  rewrite Qmult_comm, <- sumQ_scale. apply sumQ_ext. intros i _. ring.
Qed.

Section Bellman.
Variable e : Z -> Z -> Z -> Z -> Q.
Variables (rw v : Z -> Q) (g : Q).
Variables St Ac Rw : list Z.

(** The expected one-step return splits into the expected reward and
    the discounted expected value of the next state. *)
Lemma expected_return_split (s : Z) :
  (sumQ Ac (fun a => sumQ St (fun s' => sumQ Rw (fun r =>
      e s' r a s * (rw r + g * v s'))))
   == sumQ Ac (fun a => sumQ Rw (fun r => sumQ St (fun s' =>
        e s' r a s * rw r)))
      + g * sumQ St (fun s' =>
              sumQ Ac (fun a => sumQ Rw (fun r => e s' r a s)) * v s'))%Q.
Proof.
  transitivity
    (sumQ Ac (fun a =>
       sumQ Rw (fun r => sumQ St (fun s' => e s' r a s * rw r))
       + g * sumQ St (fun s' => sumQ Rw (fun r => e s' r a s) * v s')))%Q.
  - apply sumQ_ext. intros a _.
    rewrite (sumQ_swap Rw St), <- sumQ_scale, <- sumQ_plus.
    apply sumQ_ext. intros s' _.
    rewrite <- sumQ_scale_r, <- sumQ_scale, <- sumQ_plus.
    apply sumQ_ext. intros r _. ring.
  - rewrite sumQ_plus, sumQ_scale.
    apply Qplus_comp; [reflexivity|]. apply Qmult_comp; [reflexivity|].
    rewrite sumQ_swap. apply sumQ_ext. intros s' _.
    rewrite <- sumQ_scale_r. reflexivity.
Qed.
End Bellman.

Lemma mget_A (i j : Z) :
  0 <= i < 25 -> 0 <= j < 25 ->
  mget A i j = (I i j - γ / 4 * p_next j i)%Q.
Proof.
  intros Hi Hj. unfold mget, A.
  rewrite (item_map_range _ state_size i Hi). cbn [mbind option_bind].
  rewrite (item_map_range _ state_size j Hj). reflexivity.
Qed.

Lemma vget_b (s : Z) :
  0 <= s < 25 ->
  vget b s
  = (sumQ (range n_actions) (fun a =>
       sumQ (range n_rewards) (fun r =>
         sumQ (range state_size) (fun s' =>
           entry p_gridworld s' r a s * reward r))) / 4)%Q.
Proof.
  intros Hs. unfold vget, b. rewrite (item_map_range _ state_size s Hs).
  reflexivity.
Qed.

(** Row [s] of [A @ v]. *)
Lemma matvec_A (x : list Q) (s : Z) :
  0 <= s < 25 ->
  (matvec_at A x s
   == vget x s
      - γ / 4 * sumQ (range state_size) (fun s' => p_next s' s * vget x s'))%Q.
Proof.
  intros Hs. unfold matvec_at.
  rewrite (sumQ_ext _ _ (fun j =>
             (if s =? j then 1 else 0) * vget x j
             + - (γ / 4) * (p_next j s * vget x j))%Q).
  - rewrite sumQ_plus, sumQ_scale, sumQ_delta;
      [ring | apply NoDup_range | apply range_spec, Hs].
  - intros j Hj. apply range_spec in Hj.
    rewrite (mget_A s j Hs Hj). unfold I. ring.
Qed.

(** C3. Every solution [x] of the linear system [A x = b] satisfies the
    Bellman equation of the uniform policy at every state: [x(s)] is one
    quarter of the sum, over the actions, next states and rewards, of
    [p(s', r | s, a) * (r + γ * x(s'))], with [γ] = 0.9. *)
Theorem linear_system_is_bellman (x : list Q) (s : Z) :
  solves A b x ->
  0 <= s < 25 ->
  (vget x s
   == (1 # 4) * sumQ (range n_actions) (fun a =>
                  sumQ (range state_size) (fun s' =>
                    sumQ (range n_rewards) (fun r =>
                      entry p_gridworld s' r a s
                      * (reward r + (9 # 10) * vget x s')))))%Q.
Proof.
  intros [_ Hsol] Hs. specialize (Hsol s Hs).
  rewrite (matvec_A x s Hs), (vget_b s Hs) in Hsol.
  rewrite (expected_return_split (entry p_gridworld) reward (vget x)).
  fold (p_next) in *.
  change (fun s' : Z =>
            (sumQ (range n_actions) (fun a : Z =>
               sumQ (range n_rewards) (fun r : Z => entry p_gridworld s' r a s))
             * vget x s')%Q)
    with (fun s' : Z => (p_next s' s * vget x s')%Q).
  set (R := sumQ (range n_actions) _) in *.
  set (V := sumQ (range state_size) _) in *.
  unfold γ in Hsol.
  assert (Hx : (vget x s == R / 4 + (9 # 10) / 4 * V)%Q).
  { rewrite <- Hsol. ring. }
  rewrite Hx. field.
Qed.

Lemma v_pi_check : solves_check A b v_pi = true.
Proof. vm_compute. reflexivity. Qed.

Lemma solves_check_spec (m : list (list Q)) (y x : list Q) :
  solves_check m y x = true -> solves m y x.
Proof.
  unfold solves_check. intros H.
  apply andb_true_iff in H as [Hlen Hrows]. split.
  - apply bool_decide_eq_true in Hlen. exact Hlen.
  - intros i Hi. unfold matvec_at. rewrite <- sumQ_red_eq.
    apply Qeq_bool_eq, (forallb_range _ _ Hrows i Hi).
Qed.

(** The system has a solution: the vector found by elimination. *)
Lemma v_pi_solves : solves A b v_pi.
Proof. apply solves_check_spec, v_pi_check. Qed.

Lemma linear_system_is_bellman_witness :
  (vget v_pi 0
   == (1 # 4) * sumQ (range n_actions) (fun a =>
                  sumQ (range state_size) (fun s' =>
                    sumQ (range n_rewards) (fun r =>
                      entry p_gridworld s' r a 0
                      * (reward r + (9 # 10) * vget v_pi s')))))%Q.
Proof.
  exact (linear_system_is_bellman v_pi 0 v_pi_solves ltac:(lia)).
Defined.

End GridworldFacts.

(** ** Blackjack *)

Module BlackjackFacts.
Import Py PyFacts Blackjack.

(** *** Running the loops with more fuel *)

Lemma dealer_strategy_fuel_mono (draws : nat -> Z) (fuel fuel' : nat)
    (value_cards : Z) (k : nat) (res : Z * nat) :
  (fuel <= fuel')%nat ->
  dealer_strategy fuel draws value_cards k = Some res ->
  dealer_strategy fuel' draws value_cards k = Some res.
Proof.
  revert fuel' value_cards k.
  induction fuel as [|fuel IH]; intros fuel' v k Hle H;
    destruct fuel' as [|fuel']; cbn in *;
    destruct (v <? 17); try discriminate; try lia; try exact H.
  apply IH; [lia | exact H].
Qed.

Lemma hit_loop_fuel_mono (draws : nat -> Z) (policy : list (list Q))
    (fuel fuel' : nat) (g : game) (res : py game) :
  (fuel <= fuel')%nat ->
  hit_loop fuel draws policy g = Some res ->
  hit_loop fuel' draws policy g = Some res.
Proof.
  revert fuel' g.
  induction fuel as [|fuel IH]; intros fuel' g Hle H;
    destruct fuel' as [|fuel']; cbn in *;
    destruct (policy_stick policy (player_value_cards g)) as [stick|];
    try exact H; destruct (Qeq_bool stick 1);
    try discriminate; try lia; try exact H.
  destruct (update_player_card _ _) as [value ace].
  destruct (21 <? value); [exact H|]. apply IH; [lia | exact H].
Qed.

(** *** The path of [blackjack] through both loops *)

Lemma blackjack_played (fuel1 fuel2 fuel : nat) (draws : nat -> Z) (pv : Z)
    (dealer_cards : list Z) (policy : list (list Q)) (ace : bool)
    (g : game) (dv : Z) (k : nat) :
  (fuel1 <= fuel)%nat -> (fuel2 <= fuel)%nat ->
  natural pv dealer_cards = false ->
  hit_loop fuel1 draws policy (start pv ace) = Some (ok g) ->
  dealer_strategy fuel2 draws (foldr Z.add 0 dealer_cards) (n_drawn g)
  = Some (dv, k) ->
  blackjack fuel draws pv dealer_cards policy ace = Some (ok (settle g dv)).
Proof.
  intros H1 H2 Hnat Hhit Hdealer.
  apply (hit_loop_fuel_mono _ _ _ _ _ _ H1) in Hhit.
  apply (dealer_strategy_fuel_mono _ _ _ _ _ _ H2) in Hdealer.
  unfold natural in Hnat. unfold blackjack.
  rewrite Hnat, Hhit, Hdealer. reflexivity.
Qed.

(** Conversely, a value returned by [blackjack] is the bare reward 1 of
    the first [return], or comes from a run of both loops. *)
Lemma blackjack_inv (fuel : nat) (draws : nat -> Z) (pv : Z)
    (dealer_cards : list Z) (policy : list (list Q)) (ace : bool)
    (res : retval) :
  blackjack fuel draws pv dealer_cards policy ace = Some (ok res) ->
  (natural pv dealer_cards = true /\ res = ret_reward 1) \/
  (natural pv dealer_cards = false /\
   exists g dv k,
     hit_loop fuel draws policy (start pv ace) = Some (ok g) /\
     dealer_strategy fuel draws (foldr Z.add 0 dealer_cards) (n_drawn g)
     = Some (dv, k) /\
     res = settle g dv).
Proof.
  unfold natural, blackjack.
  destruct ((pv =? 21) && negb (foldr Z.add 0 dealer_cards =? 21)).
  - intros [= <-]. left. split; reflexivity.
  - destruct (hit_loop fuel draws policy (start pv ace)) as [[g|]|] eqn:Hhit;
      try discriminate.
    destruct (dealer_strategy _ _ _ _) as [[dv k]|] eqn:Hdealer;
      try discriminate.
    intros [= <-]. right. split; [reflexivity|].
    exists g, dv, k. auto.
Qed.

(** C2, at the input where it fails. With 21 in hand against a dealer
    holding 10 and 6, [blackjack] returns the bare reward 1 and no
    history, whatever the policy, the draws and the ace flag; this is
    not the pair returned at the end of the function. *)
Theorem blackjack_natural_returns_bare_reward
    (fuel : nat) (draws : nat -> Z) (policy : list (list Q)) (ace : bool) :
  blackjack fuel draws 21 [10; 6] policy ace = Some (ok (ret_reward 1)) /\
  forall (reward : Z) (hist : list Z), ret_reward 1 <> ret_pair reward hist.
Proof. split; [reflexivity | discriminate]. Qed.

(** When the hands are played, the function does return the pair, with
    a reward among +1, 0 and -1. *)
Lemma blackjack_played_shape (fuel : nat) (draws : nat -> Z) (pv : Z)
    (dealer_cards : list Z) (policy : list (list Q)) (ace : bool)
    (res : retval) :
  natural pv dealer_cards = false ->
  blackjack fuel draws pv dealer_cards policy ace = Some (ok res) ->
  exists reward hist,
    res = ret_pair reward hist /\ (reward = 1 \/ reward = 0 \/ reward = -1).
Proof.
  intros Hnat H. apply blackjack_inv in H as [[Hn _]|(_ & g & dv & k & _ & _ & ->)];
    [congruence|].
  unfold settle, final_reward. eexists _, _. split; [reflexivity|].
  destruct (21 <? player_value_cards g); [auto|].
  destruct (21 <? dv); [auto|].
  destruct (dv <? player_value_cards g); auto.
Qed.

(** The reward assignment tests the player's bust first: if the hit loop
    ends with the player's hand above 21 and the dealer's loop ends,
    with any total, then [blackjack], run long enough for both loops,
    returns the reward -1. The dealer's loop is run before that test. *)
Theorem bust_loses (fuel1 fuel2 fuel : nat) (draws : nat -> Z) (pv : Z)
    (dealer_cards : list Z) (policy : list (list Q)) (ace : bool)
    (g : game) (dv : Z) (k : nat) :
  (fuel1 <= fuel)%nat -> (fuel2 <= fuel)%nat ->
  natural pv dealer_cards = false ->
  hit_loop fuel1 draws policy (start pv ace) = Some (ok g) ->
  21 < player_value_cards g ->
  dealer_strategy fuel2 draws (foldr Z.add 0 dealer_cards) (n_drawn g)
  = Some (dv, k) ->
  blackjack fuel draws pv dealer_cards policy ace
  = Some (ok (ret_pair (-1) (hist_reward g ++ [-1]))).
Proof.
  intros H1 H2 Hnat Hhit Hbust Hdealer.
  rewrite (blackjack_played _ _ _ _ _ _ _ _ _ _ _ H1 H2 Hnat Hhit Hdealer).
  unfold settle, final_reward.
  destruct (Z.ltb_spec 21 (player_value_cards g)); [reflexivity | lia].
Qed.

(** The player draws 5 and 5 from 13 and busts; the dealer then goes
    from 11 to 21. *)
Lemma bust_loses_witness :
  blackjack 30 (fun _ => 5) 13 [5; 6] policy false
  = Some (ok (ret_pair (-1) [0; 0; 0; -1])).
Proof.
  refine (bust_loses 2 2 30 (fun _ => 5) 13 [5; 6] policy false _ _ _
            _ _ eq_refl eq_refl _ eq_refl); [lia | lia | reflexivity].
Defined.

(** C9. When the hands are played and neither busts, a player total at
    most the dealer's gives the reward 0; in the branch of the first
    [return] these premises cannot hold of the two hands; and whenever
    [blackjack] returns the reward -1, the hit loop ended with the
    player's hand above 21. *)
Theorem tie_or_lower_scores_zero (fuel : nat) (draws : nat -> Z) (pv : Z)
    (dealer_cards : list Z) (policy : list (list Q)) (ace : bool) :
  (forall (fuel1 fuel2 : nat) (g : game) (dv : Z) (k : nat),
      (fuel1 <= fuel)%nat -> (fuel2 <= fuel)%nat ->
      natural pv dealer_cards = false ->
      hit_loop fuel1 draws policy (start pv ace) = Some (ok g) ->
      dealer_strategy fuel2 draws (foldr Z.add 0 dealer_cards) (n_drawn g)
      = Some (dv, k) ->
      player_value_cards g <= 21 -> dv <= 21 -> player_value_cards g <= dv ->
      blackjack fuel draws pv dealer_cards policy ace
      = Some (ok (ret_pair 0 (hist_reward g ++ [0])))) /\
  (natural pv dealer_cards = true ->
   ~ (foldr Z.add 0 dealer_cards <= 21 /\ pv <= foldr Z.add 0 dealer_cards)) /\
  (forall res : retval,
      blackjack fuel draws pv dealer_cards policy ace = Some (ok res) ->
      retval_reward res = -1 ->
      exists g : game,
        hit_loop fuel draws policy (start pv ace) = Some (ok g) /\
        21 < player_value_cards g).
Proof.
  split; [|split].
  - intros fuel1 fuel2 g dv k H1 H2 Hnat Hhit Hdealer Hp Hd Hle.
    rewrite (blackjack_played _ _ _ _ _ _ _ _ _ _ _ H1 H2 Hnat Hhit Hdealer).
    unfold settle, final_reward.
    destruct (Z.ltb_spec 21 (player_value_cards g)); [lia|].
    destruct (Z.ltb_spec 21 dv); [lia|].
    destruct (Z.ltb_spec dv (player_value_cards g)); [lia | reflexivity].
  - unfold natural. intros Hnat [Hd Hle].
    apply andb_true_iff in Hnat as [Hp Hne].
    apply Z.eqb_eq in Hp. apply negb_true_iff, Z.eqb_neq in Hne. lia.
  - intros res H Hr.
    apply blackjack_inv in H as [[_ ->]|(_ & g & dv & k & Hhit & _ & ->)];
      [discriminate Hr|].
    exists g. split; [exact Hhit|].
    unfold settle, final_reward, retval_reward in Hr.
    destruct (Z.ltb_spec 21 (player_value_cards g)); [assumption|].
    destruct (21 <? dv); [discriminate|].
    destruct (dv <? player_value_cards g); discriminate.
Qed.

(** The player sticks on 20 and the dealer stands on 20. *)
Lemma tie_or_lower_scores_zero_witness :
  blackjack 30 (fun _ => 5) 20 [10; 10] policy false
  = Some (ok (ret_pair 0 [0; 0])).
Proof.
  refine (proj1 (tie_or_lower_scores_zero 30 (fun _ => 5) 20 [10; 10] policy
                   false) 0%nat 0%nat _ _ _ _ _ eq_refl eq_refl eq_refl _ _ _);
    cbn; lia.
Defined.

(** *** The hit loop and the rows of the policy *)

Lemma hist_inv_start (pv : Z) (ace : bool) : hist_inv (start pv ace).
Proof. split; cbn; [reflexivity | reflexivity | intros; lia]. Qed.

Lemma hit_loop_sticks (fuel : nat) (draws : nat -> Z)
    (policy : list (list Q)) (g : game) :
  sticks policy (player_value_cards g) ->
  hit_loop fuel draws policy g = Some (ok g).
Proof.
  intros (stick & Hrow & Hone). apply Qeq_bool_iff in Hone.
  destruct fuel; cbn; rewrite Hrow, Hone; reflexivity.
Qed.

Lemma hit_loop_hist_inv (draws : nat -> Z) (policy : list (list Q))
    (fuel : nat) (g0 g : game) :
  sticks policy 20 -> sticks policy 21 ->
  hist_inv g0 ->
  hit_loop fuel draws policy g0 = Some (ok g) ->
  hist_inv g.
Proof.
  intros H20 H21. revert g0.
  induction fuel as [|fuel IH]; intros g0 Hinv H; cbn in H;
    destruct (policy_stick policy (player_value_cards g0)) as [stick|] eqn:Hrow;
    try discriminate;
    destruct (Qeq_bool stick 1) eqn:Hone;
    try discriminate; try (injection H as <-; exact Hinv).
  assert (Hhit : player_value_cards g0 <> 20 /\ player_value_cards g0 <> 21).
  { split; intros Heq; rewrite Heq in Hrow;
      [destruct H20 as (q & Hq & Hq1) | destruct H21 as (q & Hq & Hq1)];
      rewrite Hq in Hrow; injection Hrow as ->;
      apply Qeq_bool_iff in Hq1; congruence. }
  destruct (update_player_card _ _) as [value new_ace].
  destruct Hinv as [Hlen Hlast Hbefore].
  set (g' := {| player_value_cards := value |}) in H.
  assert (Hinv' : hist_inv g').
  { split; subst g'; cbn.
    - rewrite length_app, Hlen. cbn. lia.
    - rewrite lookup_app_r by lia. rewrite Hlen, Nat.sub_diag. reflexivity.
    - intros i v u Hi Hlook.
      destruct (decide (i = n_drawn g0)) as [-> | Hne].
      + rewrite lookup_app_l, Hlast in Hlook by lia.
        injection Hlook as <- <-. exact Hhit.
      + rewrite lookup_app_l in Hlook by lia.
        apply (Hbefore i v u); [lia | exact Hlook]. }
  destruct (21 <? value); [injection H as <-; exact Hinv'|].
  apply (IH g' Hinv' H).
Qed.

(** C5. Let the policy mark stick on the rows of 20 and of 21. Then
    the hit loop entered with a hand of 20 or 21 ends at once, in the
    same state and with no card drawn, whatever the fuel; and in every
    game, if the hand after [i] cards is 20 or 21, then [i] is the
    number of cards the player draws in the whole game. *)
Theorem stick_on_20_21_draws_no_more (draws : nat -> Z)
    (policy : list (list Q)) :
  sticks policy 20 -> sticks policy 21 ->
  (forall (fuel : nat) (g : game),
      player_value_cards g = 20 \/ player_value_cards g = 21 ->
      hit_loop fuel draws policy g = Some (ok g)) /\
  (forall (fuel : nat) (pv : Z) (ace : bool) (g : game)
          (i : nat) (value : Z) (u : bool),
      hit_loop fuel draws policy (start pv ace) = Some (ok g) ->
      hist_state g !! i = Some (value, u) ->
      value = 20 \/ value = 21 ->
      n_drawn g = i /\ length (hist_state g) = S i).
Proof.
  intros H20 H21. split.
  - intros fuel g [Hg | Hg]; apply hit_loop_sticks; rewrite Hg; assumption.
  - intros fuel pv ace g i value u Hrun Hlook Hval.
    destruct (hit_loop_hist_inv draws policy fuel _ _ H20 H21
                (hist_inv_start pv ace) Hrun) as [Hlen _ Hbefore].
    apply lookup_lt_Some in Hlook as Hi. rewrite Hlen in Hi.
    destruct (decide (i < n_drawn g)%nat) as [Hlt|Hge].
    + destruct (Hbefore i value u Hlt Hlook). lia.
    + assert (n_drawn g = i) as <- by lia. split; [reflexivity | exact Hlen].
Qed.

Lemma policy_sticks_20 : sticks policy 20.
Proof. exists 1%Q. split; reflexivity. Qed.

Lemma policy_sticks_21 : sticks policy 21.
Proof. exists 1%Q. split; reflexivity. Qed.

(** A hand of 20 is left as it is; from 13 the player draws 7, reaches
    20 after one card, and one card is all the player draws. *)
Lemma stick_on_20_21_draws_no_more_witness :
  hit_loop 0 (fun _ => 7) policy (start 20 false) = Some (ok (start 20 false))
  /\ exists g : game,
       hit_loop 5 (fun _ => 7) policy (start 13 false) = Some (ok g) /\
       n_drawn g = 1%nat /\ length (hist_state g) = 2%nat.
Proof.
  destruct (stick_on_20_21_draws_no_more (fun _ => 7) policy
              policy_sticks_20 policy_sticks_21) as [Hstop Hlast].
  split.
  - apply Hstop. left. reflexivity.
  - eexists. split; [reflexivity|].
    apply (Hlast 5%nat 13 false _ 1%nat 20 false);
      [reflexivity | reflexivity | left; reflexivity].
Defined.

(** *** Termination *)

(** The draw that comes out as 0: the first category of [deck_probs]. *)
Lemma can_draw_0 : can_draw 0.
Proof. exists (1 # 13)%Q. split; reflexivity. Qed.

Lemma dealer_strategy_zero_draws (fuel : nat) (value_cards : Z) (k : nat) :
  value_cards < 17 ->
  dealer_strategy fuel (fun _ => 0) value_cards k = None.
Proof.
  intros Hv. revert k. induction fuel as [|fuel IH]; intros k; cbn;
    destruct (Z.ltb_spec value_cards 17); try lia; [reflexivity|].
  rewrite Z.add_0_r. apply IH.
Qed.

Lemma hit_loop_zero_draws (fuel : nat) (g : game) :
  player_value_cards g = 12 ->
  hit_loop fuel (fun _ => 0) policy g = None.
Proof.
  revert g. induction fuel as [|fuel IH]; intros g Hg; cbn; rewrite Hg;
    [reflexivity|].
  apply IH. reflexivity.
Qed.

(** C7, at the input where it fails. The draw 0 can come out of
    [draw_card]; when every draw is 0, the dealer's loop entered at 16
    and the player's loop entered at 12 under the notebook's policy are
    still running after any number of iterations, and so is
    [blackjack]. *)
Theorem zero_draws_never_end :
  can_draw 0 /\
  (forall (fuel k : nat), dealer_strategy fuel (fun _ => 0) 16 k = None) /\
  (forall (fuel : nat) (ace : bool),
      hit_loop fuel (fun _ => 0) policy (start 12 ace) = None) /\
  (forall (fuel : nat) (ace : bool),
      blackjack fuel (fun _ => 0) 12 [10; 6] policy ace = None).
Proof.
  split; [exact can_draw_0|]. split; [|split].
  - intros fuel k. apply dealer_strategy_zero_draws. lia.
  - intros fuel ace. apply hit_loop_zero_draws. reflexivity.
  - intros fuel ace. unfold blackjack.
    rewrite hit_loop_zero_draws by reflexivity. reflexivity.
Qed.

(** With card values of at least 1 both loops end: the dealer's within
    [17 - value_cards] iterations, the player's within
    [22 - player_value_cards] iterations, or one if that is less (by a
    stick, a bust or an [IndexError] of the policy table). *)
Lemma dealer_strategy_terminates (draws : nat -> Z) :
  (forall i, 1 <= draws i) ->
  forall (fuel : nat) (value_cards : Z) (k : nat),
    17 - value_cards <= Z.of_nat fuel ->
    exists res, dealer_strategy fuel draws value_cards k = Some res.
Proof.
  intros Hpos. induction fuel as [|fuel IH]; intros v k Hfuel; cbn;
    destruct (Z.ltb_spec v 17); try lia; eauto.
  apply IH. specialize (Hpos k). lia.
Qed.

Lemma update_player_card_grows (current_value new_card : Z) :
  1 <= new_card ->
  current_value + 1 <= fst (update_player_card current_value new_card).
Proof.
  intros H. unfold update_player_card.
  destruct ((new_card =? 1) && (current_value <=? 10)); cbn; lia.
Qed.

Lemma hit_loop_terminates (draws : nat -> Z) (policy : list (list Q)) :
  (forall i, 1 <= draws i) ->
  forall (fuel : nat) (g : game),
    (1 <= fuel)%nat ->
    22 - player_value_cards g <= Z.of_nat fuel ->
    exists res, hit_loop fuel draws policy g = Some res.
Proof.
  intros Hpos. induction fuel as [|fuel IH]; intros g Hone Hfuel; [lia|].
  cbn.
  destruct (policy_stick policy (player_value_cards g)) as [stick|] eqn:Hrow;
    eauto; destruct (Qeq_bool stick 1); eauto.
  pose proof (update_player_card_grows (player_value_cards g)
                (draws (n_drawn g)) (Hpos _)) as Hgrow.
  destruct (update_player_card _ _) as [value new_ace]. cbn in Hgrow.
  destruct (Z.ltb_spec 21 value); eauto.
  apply IH; cbn; lia.
Qed.

(** *** A bust followed by a dealer who never stands *)

Lemma dealer_strategy_after_first_draw (fuel : nat) (value_cards : Z)
    (k : nat) :
  value_cards < 17 ->
  dealer_strategy fuel (fun i : nat => match i with O => 9 | S _ => 0 end)
    value_cards (S k) = None.
Proof.
  intros Hv. revert k. induction fuel as [|fuel IH]; intros k; cbn;
    destruct (Z.ltb_spec value_cards 17); try lia; [reflexivity|].
  rewrite Z.add_0_r. apply IH.
Qed.

(** C4, at the input where it fails. Let the first draw be 9 and every
    later draw be 0, all of them values [draw_card] can return. From 13
    the player draws the 9 and ends the hit loop at 22, above 21; the
    dealer's loop, run before the bust is tested, then stays at 16, and
    [blackjack] is still running after any number of iterations: no
    reward -1 is returned. *)
Theorem bust_then_dealer_never_stands :
  let draws := fun i : nat => match i with O => 9 | S _ => 0 end in
  (forall i, can_draw (draws i)) /\
  (exists g : game,
      hit_loop 1 draws policy (start 13 false) = Some (ok g) /\
      21 < player_value_cards g) /\
  (forall fuel : nat, blackjack fuel draws 13 [10; 6] policy false = None).
Proof.
  cbv zeta. split; [|split].
  - intros [|i]; [exists (4 # 13)%Q | exists (1 # 13)%Q]; split; reflexivity.
  - eexists. split; [reflexivity|]. cbn. lia.
  - intros [|fuel]; [reflexivity|].
    unfold blackjack. cbn [Z.eqb andb negb].
    replace (hit_loop (S fuel)
               (fun i : nat => match i with O => 9 | S _ => 0 end) policy
               (start 13 false))
      with (Some (ok {| player_value_cards := 22; has_usable_ace := false;
                        hist_reward := [0; 0];
                        hist_state := [(13, false); (22, false)];
                        hist_action := [0; 0]; n_drawn := 1 |}))
      by reflexivity.
    cbn [n_drawn foldr].
    rewrite (dealer_strategy_after_first_draw (S fuel) (10 + (6 + 0)) 0)
      by lia.
    reflexivity.
Qed.

(** With card values of at least 1 the dealer's loop ends, and a bust
    of the player is then always scored -1. *)
Lemma bust_loses_on_positive_draws (fuel1 : nat) (draws : nat -> Z) (pv : Z)
    (dealer_cards : list Z) (policy : list (list Q)) (ace : bool)
    (g : game) :
  (forall i, 1 <= draws i) ->
  natural pv dealer_cards = false ->
  hit_loop fuel1 draws policy (start pv ace) = Some (ok g) ->
  21 < player_value_cards g ->
  exists fuel,
    blackjack fuel draws pv dealer_cards policy ace
    = Some (ok (ret_pair (-1) (hist_reward g ++ [-1]))).
Proof.
  intros Hpos Hnat Hhit Hbust.
  set (fuel2 := Z.to_nat (17 - foldr Z.add 0 dealer_cards)).
  destruct (dealer_strategy_terminates draws Hpos fuel2
              (foldr Z.add 0 dealer_cards) (n_drawn g) ltac:(lia))
    as [[dv k] Hdealer].
  exists (Nat.max fuel1 fuel2).
  apply (bust_loses fuel1 fuel2 _ _ _ _ _ _ g dv k); auto; lia.
Qed.

(** Hence a play with card values of at least 1 ends, with a value or
    with an [IndexError] of the policy table. *)
Lemma blackjack_terminates (draws : nat -> Z) (pv : Z)
    (dealer_cards : list Z) (policy : list (list Q)) (ace : bool) :
  (forall i, 1 <= draws i) ->
  exists fuel res, blackjack fuel draws pv dealer_cards policy ace = Some res.
Proof.
  intros Hpos.
  set (dealer := foldr Z.add 0 dealer_cards).
  exists (Z.to_nat (Z.max 1 (Z.max (22 - pv) (17 - dealer)))).
  set (fuel := Z.to_nat _). unfold blackjack. fold dealer.
  destruct ((pv =? 21) && negb (dealer =? 21)); [eauto|].
  destruct (hit_loop_terminates draws policy Hpos fuel (start pv ace))
    as [[g|] ->]; cbn; try lia; [|eauto].
  destruct (dealer_strategy_terminates draws Hpos fuel dealer (n_drawn g))
    as [[dv k] ->]; [lia | eauto].
Qed.

End BlackjackFacts.

(** ** Gridworld: positions, the remaining transitions and the system *)

Module GridworldMore.
Import Py PyFacts Gridworld GridworldFacts GridworldValues.

(** On the unbounded integers of the model, flattening the position of
    an index gives the index back. *)
Lemma get_state_get_pos (ix : Z) : get_state (get_pos ix) = ix.
Proof.
  unfold get_state, get_pos. symmetry. apply Z.div_mod. lia.
Qed.

Lemma int64_wrap_fits (z : Z) :
  - 2 ^ 63 <= z < 2 ^ 63 -> int64_wrap z = z.
Proof.
  intros Hz. unfold int64_wrap. rewrite Z.mod_small; lia.
Qed.

(** A sum of int64 values wraps once, however its terms were wrapped. *)
Lemma int64_wrap_add (x y : Z) :
  int64_wrap (int64_wrap x + y) = int64_wrap (x + y).
Proof.
  unfold int64_wrap.
  replace ((x + 2 ^ 63) mod 2 ^ 64 - 2 ^ 63 + y + 2 ^ 63)
    with ((x + 2 ^ 63) mod 2 ^ 64 + y) by lia.
  rewrite Zplus_mod_idemp_l. f_equal. f_equal. lia.
Qed.

(** On the positions of the grid and its border the int64 operations do
    not wrap. *)
Lemma get_state_int64_small (row col : Z) :
  - 2 ^ 60 <= row <= 2 ^ 60 -> - 2 ^ 60 <= col <= 2 ^ 60 ->
  get_state_int64 (row, col) = get_state (row, col).
Proof.
  intros Hr Hc. unfold get_state_int64, get_state.
  rewrite (int64_wrap_fits (5 * row)) by lia. apply int64_wrap_fits. lia.
Qed.

(** X1. For every index that fits in 64 bits, flattening the position
    that [get_pos] returns gives the index back, in int64 arithmetic
    (the product [5 * row] may wrap on the way, the sum wraps back);
    from [2^63] on the result has wrapped: [2^63] comes back as
    [-2^63]. *)
Theorem get_state_get_pos_int64 (ix : Z) :
  - 2 ^ 63 <= ix < 2 ^ 63 ->
  get_state_int64 (get_pos ix) = ix /\
  get_state_int64 (get_pos (2 ^ 63)) = - 2 ^ 63.
Proof.
  intros Hix. split; [|reflexivity].
  pose proof (get_state_get_pos ix) as H. unfold get_state, get_pos in H.
  unfold get_state_int64, get_pos.
  rewrite int64_wrap_add, H. apply int64_wrap_fits, Hix.
Qed.

(** The lowest int64 index: [5 * row] wraps and the sum wraps back. *)
Lemma get_state_get_pos_int64_witness :
  get_state_int64 (get_pos (- 2 ^ 63)) = - 2 ^ 63
  /\ int64_wrap (5 * fst (get_pos (- 2 ^ 63))) <> 5 * fst (get_pos (- 2 ^ 63)).
Proof.
  split.
  - apply (get_state_get_pos_int64 (- 2 ^ 63)). lia.
  - vm_compute. discriminate.
Defined.

(** X2. The position of a flattened position is that position exactly
    when its column is one of 0..4; a column outside this range is
    folded into the neighbouring rows. *)
Theorem get_pos_get_state (row col : Z) :
  get_pos (get_state (row, col)) = (row, col) <-> 0 <= col < 5.
Proof.
  unfold get_state, get_pos. split.
  - intros [= _ Hcol]. rewrite <- Hcol. apply Z.mod_pos_bound. lia.
  - intros Hcol. f_equal; symmetry.
    + apply Z.div_unique with (r := col); lia.
    + apply Z.mod_unique with (q := row); lia.
Qed.

Lemma get_pos_get_state_witness :
  get_pos (get_state (3, 4)) = (3, 4) /\ get_pos (get_state (3, 5)) = (4, 0).
Proof.
  split; [apply (proj2 (get_pos_get_state 3 4)); lia | reflexivity].
Defined.

Lemma action_map_cases (action : string) :
  (exists d, dict_get action_map action = Some d /\ In action actions /\
             Z.abs (fst d) + Z.abs (snd d) = 1) \/
  (dict_get action_map action = None /\ ~ In action actions).
Proof.
  unfold action_map, actions. cbn [dict_get].
  destruct (decide (action = "up"%string)) as [-> | H1];
    [left; eexists; repeat split; cbn; tauto|].
  destruct (decide (action = "right"%string)) as [-> | H2];
    [left; eexists; repeat split; cbn; tauto|].
  destruct (decide (action = "down"%string)) as [-> | H3];
    [left; eexists; repeat split; cbn; tauto|].
  destruct (decide (action = "left"%string)) as [-> | H4];
    [left; eexists; repeat split; cbn; tauto|].
  right. split; [reflexivity|].
  intros [H | [H | [H | [H | []]]]]; congruence.
Qed.

(** X3. The four moves of a state of the grid. The flattened index of
    the moved position is always [s - 5], [s + 1], [s + 5] or [s - 1],
    also when the move leaves the grid (a step to the right from the
    last column flattens to the next state), and the out-of-bounds test
    holds exactly on the matching border: first row, last column, last
    row, first column. Any other action name raises [KeyError]. *)
Theorem grid_moves (s : Z) :
  0 <= s < 25 ->
  (exists p, move s "up" = Some p /\ get_state p = s - 5 /\
             (is_out_of_bounds p p 0 4 = true <-> s < 5)) /\
  (exists p, move s "right" = Some p /\ get_state p = s + 1 /\
             (is_out_of_bounds p p 0 4 = true <-> s mod 5 = 4)) /\
  (exists p, move s "down" = Some p /\ get_state p = s + 5 /\
             (is_out_of_bounds p p 0 4 = true <-> 20 <= s)) /\
  (exists p, move s "left" = Some p /\ get_state p = s - 1 /\
             (is_out_of_bounds p p 0 4 = true <-> s mod 5 = 0)) /\
  (forall action, ~ In action actions -> move s action = None).
Proof.
  intros Hs.
  pose proof (Z.div_mod s 5 ltac:(lia)) as Hdm.
  pose proof (Z.mod_pos_bound s 5 ltac:(lia)) as Hmod.
  assert (Hdiv : 0 <= s / 5 <= 4) by lia.
  assert (Hmove : forall (action : string) (d : Z * Z),
             dict_get action_map action = Some d ->
             move s action = Some (s / 5 + fst d, s mod 5 + snd d)).
  { intros action d Hd. unfold move. rewrite Hd. reflexivity. }
  split; [|split; [|split; [|split]]].
  - exists (s / 5 + -1, s mod 5 + 0). split; [exact (Hmove "up" (-1, 0) eq_refl)|].
    rewrite is_out_of_bounds_spec. unfold get_state. cbn [fst snd]. lia.
  - exists (s / 5 + 0, s mod 5 + 1).
    split; [exact (Hmove "right" (0, 1) eq_refl)|].
    rewrite is_out_of_bounds_spec. unfold get_state. cbn [fst snd]. lia.
  - exists (s / 5 + 1, s mod 5 + 0).
    split; [exact (Hmove "down" (1, 0) eq_refl)|].
    rewrite is_out_of_bounds_spec. unfold get_state. cbn [fst snd]. lia.
  - exists (s / 5 + 0, s mod 5 + -1).
    split; [exact (Hmove "left" (0, -1) eq_refl)|].
    rewrite is_out_of_bounds_spec. unfold get_state. cbn [fst snd]. lia.
  - intros action Hnot. unfold move.
    destruct (action_map_cases action) as [(d & _ & Hin & _) | [-> _]];
      [contradiction | reflexivity].
Qed.

Lemma grid_moves_witness :
  exists p, move 9 "right" = Some p /\ get_state p = 9 + 1 /\
            (is_out_of_bounds p p 0 4 = true <-> 9 mod 5 = 4).
Proof.
  exact (proj1 (proj2 (grid_moves 9 ltac:(lia)))).
Defined.

Lemma in_grid_check_holds : in_grid_check p_gridworld = true.
Proof. vm_compute. reflexivity. Qed.

Lemma in_grid_check_spec (p : tensor)
    (s : Z) (action : string) (new_pos : Z * Z) (a_pos r_pos : Z) :
  in_grid_check p = true ->
  0 <= s < 25 ->
  ~ In s special_states ->
  move s action = Some new_pos ->
  is_out_of_bounds new_pos new_pos 0 4 = false ->
  dict_get actions_ix_map action = Some a_pos ->
  dict_get reward_map 0 = Some r_pos ->
  0 <= get_state new_pos < 25 /\
  forall s' r : Z, 0 <= s' < 25 -> 0 <= r < 4 ->
    (entry p s' r a_pos s
     == if bool_decide (s' = get_state new_pos /\ r = r_pos)%Z
        then 1 else 0)%Q.
Proof.
  unfold in_grid_check. intros H Hs Hsp Hmove Hout Ha Hr.
  apply (forallb_range _ _ H) in Hs as Hc.
  rewrite forallb_forall in Hc.
  assert (Hk : In action (dict_keys action_map)).
  { unfold move in Hmove.
    destruct (dict_get action_map action) as [d|] eqn:Hd; [|discriminate].
    apply (dict_get_keys _ _ _ Hd). }
  specialize (Hc action Hk). rewrite Hmove, Ha, Hr, Hout in Hc.
  rewrite bool_decide_eq_false_2 in Hc
    by (intros Hin; apply Hsp, list_elem_of_In, Hin).
  cbn [negb andb implb] in Hc.
  apply andb_true_iff in Hc as [Hin Hpt]. apply in_range_spec in Hin.
  split; [exact Hin|].
  intros s' r Hs' Hr'. rewrite (point_mass_spec _ _ _ _ _ _ _ Hpt Hs' Hr').
  destruct (Z.eqb_spec s' (get_state new_pos)) as [-> | ?];
    destruct (Z.eqb_spec r r_pos) as [-> | ?];
    cbn [andb]; case_bool_decide; try reflexivity; lia.
Qed.

(** X4. In a state other than the two special cells, an action whose
    move stays on the grid leads to the neighbouring cell with reward 0:
    the slice is 1 at (that cell, reward 0) and 0 at every other pair. *)
Theorem in_grid_move_reaches_neighbour
    (s : Z) (action : string) (new_pos : Z * Z) (a_pos r_pos : Z) :
  0 <= s < 25 ->
  ~ In s special_states ->
  move s action = Some new_pos ->
  is_out_of_bounds new_pos new_pos 0 4 = false ->
  dict_get actions_ix_map action = Some a_pos ->
  dict_get reward_map 0 = Some r_pos ->
  0 <= get_state new_pos < 25 /\
  forall s' r : Z, 0 <= s' < 25 -> 0 <= r < 4 ->
    (entry p_gridworld s' r a_pos s
     == if bool_decide (s' = get_state new_pos /\ r = r_pos)%Z
        then 1 else 0)%Q.
Proof. apply in_grid_check_spec, in_grid_check_holds. Qed.

Lemma in_grid_move_reaches_neighbour_witness :
  (entry p_gridworld 7 0 2 2 == 1)%Q.
Proof.
  refine (proj2 (in_grid_move_reaches_neighbour 2 "down" (1, 2) 2 0
                   _ _ _ _ _ _) 7 0 _ _);
    try reflexivity; try lia.
  intros [H | [H | []]]; discriminate H.
Defined.

Lemma special_B_check :
  forallb (fun a => point_mass p_gridworld a 3 13 1) (range n_actions) = true.
Proof. vm_compute. reflexivity. Qed.

(** X5. In state B (index 3), under each of the four actions, the
    tensor puts probability 1 on the pair (next state 13, reward +5) and
    probability 0 on every other pair. *)
Theorem special_B_transition (a s' r : Z) :
  0 <= a < 4 -> 0 <= s' < 25 -> 0 <= r < 4 ->
  (entry p_gridworld s' r a 3
   == if bool_decide (s' = 13 /\ item rewards r = Some 5)%Z then 1 else 0)%Q.
Proof.
  intros Ha Hs Hr.
  rewrite (point_mass_spec _ _ _ _ _ _ _
             (forallb_range _ _ special_B_check a Ha) Hs Hr).
  assert (Hr' : r = 0 \/ r = 1 \/ r = 2 \/ r = 3) by lia.
  destruct (Z.eqb_spec s' 13) as [-> | Hne].
  - destruct Hr' as [-> | [-> | [-> | ->]]]; reflexivity.
  - rewrite bool_decide_eq_false_2; [reflexivity|]. intros [? _]. contradiction.
Qed.

Lemma special_B_transition_witness :
  (entry p_gridworld 13 1 3 3 == 1)%Q.
Proof.
  exact (special_B_transition 3 13 1 ltac:(lia) ltac:(lia) ltac:(lia)).
Defined.

(** *** The matrix and the right-hand side *)

Lemma columns_check_p_next : columns_check p_next 4 = true.
Proof. vm_compute. reflexivity. Qed.

Lemma columns_check_spec (w : Z -> Z -> Q) (total : Q) (s : Z) :
  columns_check w total = true ->
  0 <= s < 25 ->
  (sumQ (range state_size) (fun s' => w s' s) == total)%Q /\
  forall s', 0 <= s' < 25 -> (0 <= w s' s)%Q.
Proof.
  unfold columns_check. intros H Hs.
  apply (forallb_range _ _ H) in Hs. apply andb_true_iff in Hs as [Hsum Hpos].
  split; [apply Qeq_bool_eq, Hsum|].
  intros s' Hs'. apply Qle_bool_iff, (forallb_range _ _ Hpos s' Hs').
Qed.

(** Each state has four units of mass on its successors, one per
    action. *)
Lemma p_next_facts (s : Z) :
  0 <= s < 25 ->
  (sumQ (range state_size) (fun s' => p_next s' s) == 4)%Q /\
  forall s', 0 <= s' < 25 -> (0 <= p_next s' s)%Q.
Proof. apply columns_check_spec, columns_check_p_next. Qed.

(** X6. Every row of [A] sums to [1 - γ], that is to 1/10: a constant
    vector [c] is sent by [A] to the constant vector [c / 10]. *)
Theorem A_row_sums (i : Z) :
  0 <= i < 25 ->
  (sumQ (range state_size) (fun j => mget A i j) == 1 # 10)%Q.
Proof.
  intros Hi.
  rewrite (sumQ_ext _ _ (fun j =>
             (if i =? j then 1 else 0) * 1 + - (γ / 4) * p_next j i)%Q).
  - rewrite sumQ_plus, sumQ_scale,
      (sumQ_delta _ i (fun _ => 1%Q) (NoDup_range _)
         (proj2 (range_spec state_size i) Hi)),
      (proj1 (p_next_facts i Hi)).
    reflexivity.
  - intros j Hj. apply range_spec in Hj.
    rewrite (mget_A i j Hi Hj). unfold I. ring.
Qed.

Lemma A_row_sums_witness :
  (sumQ (range state_size) (fun j => mget A 12 j) == 1 # 10)%Q.
Proof. exact (A_row_sums 12 ltac:(lia)). Defined.

Lemma expected_reward_check_b : expected_reward_check b = true.
Proof. vm_compute. reflexivity. Qed.

Lemma expected_reward_check_spec (y : list Q) (s : Z) :
  expected_reward_check y = true ->
  0 <= s < 25 ->
  (vget y s
   == if bool_decide (s = 1)%Z then 10
      else if bool_decide (s = 3)%Z then 5
      else - (inject_Z (Z.of_nat (length (off_grid_moves s))) / 4))%Q.
Proof.
  unfold expected_reward_check. intros H Hs.
  apply (forallb_range _ _ H) in Hs. apply Qeq_bool_eq in Hs. rewrite Hs.
  destruct (Z.eqb_spec s 1) as [-> | ?]; [reflexivity|].
  rewrite (bool_decide_eq_false_2 (s = 1)) by assumption.
  destruct (Z.eqb_spec s 3) as [-> | ?]; [reflexivity|].
  rewrite (bool_decide_eq_false_2 (s = 3)) by assumption.
  reflexivity.
Qed.

(** X7. The right-hand side [b] is the expected reward of one uniformly
    random action: 10 in state A, 5 in state B, and elsewhere minus one
    quarter of the number of moves that leave the grid (so -1/2 in a
    corner, -1/4 on an edge, 0 inside). *)
Theorem b_is_expected_reward (s : Z) :
  0 <= s < 25 ->
  (vget b s
   == if bool_decide (s = 1)%Z then 10
      else if bool_decide (s = 3)%Z then 5
      else - (inject_Z (Z.of_nat (length (off_grid_moves s))) / 4))%Q.
Proof. apply expected_reward_check_spec, expected_reward_check_b. Qed.

Lemma b_is_expected_reward_witness : (vget b 0 == - (1 # 2))%Q.
Proof. rewrite (b_is_expected_reward 0 ltac:(lia)). reflexivity. Defined.

(** *** Uniqueness by contraction *)

Lemma sumQ_le (l : list Z) (f g : Z -> Q) :
  (forall i, In i l -> f i <= g i)%Q -> (sumQ l f <= sumQ l g)%Q.
Proof.
  induction l as [|x l IH]; intros H; [rewrite !sumQ_nil; lra|].
  rewrite !sumQ_cons.
  pose proof (H x (or_introl eq_refl)).
  assert (sumQ l f <= sumQ l g)%Q by (apply IH; intros i Hi; apply H; right; exact Hi).
  lra.
Qed.

Lemma Qabs_sumQ (l : list Z) (f : Z -> Q) :
  (Qabs (sumQ l f) <= sumQ l (fun i => Qabs (f i)))%Q.
Proof.
  induction l as [|x l IH]; [rewrite !sumQ_nil; apply Qle_refl|].
  rewrite !sumQ_cons.
  pose proof (Qabs_triangle (f x) (sumQ l f)). lra.
Qed.

(** A weighted sum with non-negative weights of total [total], of terms
    bounded by [M] in absolute value, is bounded by [total * M]. *)
Lemma weighted_sum_bound (l : list Z) (w d : Z -> Q) (total M : Q) :
  (forall i, In i l -> 0 <= w i)%Q ->
  (sumQ l w == total)%Q ->
  (forall i, In i l -> Qabs (d i) <= M)%Q ->
  (Qabs (sumQ l (fun i => w i * d i)) <= total * M)%Q.
Proof.
  intros Hw Htotal Hd.
  apply Qle_trans with (sumQ l (fun i => w i * M))%Q.
  - eapply Qle_trans; [apply Qabs_sumQ|].
    apply sumQ_le. intros i Hi.
    rewrite Qabs_Qmult, (Qabs_pos (w i)) by (apply Hw, Hi).
    pose proof (Hw i Hi). pose proof (Hd i Hi). nra.
  - rewrite sumQ_scale_r, Htotal. lra.
Qed.

(** Some element of a non-empty list carries the largest absolute
    value. *)
Lemma Qabs_max_exists (l : list Z) (d : Z -> Q) (s0 : Z) :
  In s0 l ->
  exists s, In s l /\ forall s', In s' l -> (Qabs (d s') <= Qabs (d s))%Q.
Proof.
  revert s0. induction l as [|x l IH]; intros s0 Hin; [destruct Hin|].
  destruct l as [|y l].
  - exists x. split; [left; reflexivity|].
    intros s' [<- | []]. lra.
  - destruct (IH y (or_introl eq_refl)) as (s & Hs & Hmax).
    destruct (Qlt_le_dec (Qabs (d s)) (Qabs (d x))) as [Hlt | Hle].
    + exists x. split; [left; reflexivity|].
      intros s' [<- | Hs']; [lra|]. specialize (Hmax s' Hs'). lra.
    + exists s. split; [right; exact Hs|].
      intros s' [<- | Hs']; [exact Hle | apply Hmax, Hs'].
Qed.

(** If each [d s] is bounded by [c] times any common bound of the
    [d s'], with [c < 1], then [d] vanishes on the list. *)
Lemma contraction_zero (l : list Z) (d : Z -> Q) (c : Q) :
  (0 <= c < 1)%Q ->
  (forall s M, In s l -> (forall s', In s' l -> Qabs (d s') <= M)%Q ->
               (Qabs (d s) <= c * M)%Q) ->
  forall s, In s l -> (d s == 0)%Q.
Proof.
  intros Hc Hstep s Hs.
  destruct (Qabs_max_exists l d s Hs) as (m & Hm & Hmax).
  pose proof (Hstep m (Qabs (d m)) Hm Hmax) as Hself.
  pose proof (Qabs_nonneg (d m)) as Hpos.
  assert (Hzero : (Qabs (d m) <= 0)%Q) by nra.
  specialize (Hmax s Hs).
  assert (Hs0 : (Qabs (d s) <= 0)%Q) by lra.
  apply Qabs_Qle_condition in Hs0. lra.
Qed.

Lemma sumQ_minus (l : list Z) (f g : Z -> Q) :
  (sumQ l (fun i => f i - g i) == sumQ l f - sumQ l g)%Q.
Proof.
  induction l as [|x l IH]; [rewrite !sumQ_nil; ring|].
  rewrite !sumQ_cons, IH. ring.
Qed.

(** X8. The linear system has one solution only: two vectors that
    solve [A x = b] agree at every state. With [v_pi_solves], whatever
    solves the system is the vector [v_pi]. *)
Theorem linear_system_unique (x y : list Q) (s : Z) :
  solves A b x -> solves A b y ->
  0 <= s < 25 ->
  (vget x s == vget y s)%Q.
Proof.
  intros [_ Hx] [_ Hy] Hs.
  cut (vget x s - vget y s == 0)%Q; [lra|].
  apply (contraction_zero (range state_size)
           (fun s => vget x s - vget y s)%Q (9 # 10));
    [lra | | apply range_spec, Hs].
  clear s Hs. intros s M Hs HM. apply range_spec in Hs.
  pose proof (Hx s Hs) as Hxs. pose proof (Hy s Hs) as Hys.
  rewrite (matvec_A x s Hs) in Hxs. rewrite (matvec_A y s Hs) in Hys.
  destruct (p_next_facts s Hs) as [Htotal Hpos].
  pose proof (weighted_sum_bound (range state_size) (fun s' => p_next s' s)
                (fun s' => vget x s' - vget y s')%Q 4 M
                (fun i Hi => Hpos i (proj1 (range_spec _ _) Hi)) Htotal HM)
    as Hbound.
  rewrite (sumQ_ext _ _ (fun s' =>
             p_next s' s * vget x s' - p_next s' s * vget y s')%Q)
    in Hbound by (intros; ring).
  rewrite sumQ_minus in Hbound.
  unfold γ in Hxs, Hys.
  revert Hxs Hys Hbound.
  generalize (sumQ (range state_size) (fun s' => p_next s' s * vget x s')%Q).
  generalize (sumQ (range state_size) (fun s' => p_next s' s * vget y s')%Q).
  generalize (vget x s), (vget y s), (vget b s).
  intros xs ys bs Sy Sx Hxs Hys Hbound.
  assert (Hg : ((9 # 10) / 4 == 9 # 40)%Q) by reflexivity.
  rewrite Hg in Hxs, Hys.
  apply Qabs_Qle_condition in Hbound. apply Qabs_Qle_condition. lra.
Qed.

Lemma linear_system_unique_witness :
  (vget (map Qred v_pi) 0 == vget v_pi 0)%Q.
Proof.
  refine (linear_system_unique (map Qred v_pi) v_pi 0 _ v_pi_solves _);
    [|lia].
  apply solves_check_spec. vm_compute. reflexivity.
Defined.

(** *** The optimality equation *)

Lemma item_in_range {X : Type} (l : list X) (i : Z) :
  0 <= i < Z.of_nat (length l) -> item l i = l !! Z.to_nat i.
Proof.
  intros Hi. unfold item, index.
  replace ((0 <=? i) && (i <? Z.of_nat (length l))) with true
    by (symmetry; apply andb_true_iff; lia).
  reflexivity.
Qed.

(** The residual at a state: the value minus the best action value. *)
Lemma vget_bellman_optimality (vs : list Q) (s : Z) :
  0 <= s < Z.of_nat (length vs) ->
  vget (bellman_optimality vs) s
  = (vget vs s
     - fold_right (fun a acc => Qmax (action_value vs a s) acc)
         (action_value vs 0 s) (range n_actions))%Q.
Proof.
  intros Hs. unfold vget, bellman_optimality.
  rewrite !item_in_range by (rewrite ?length_imap; exact Hs).
  rewrite list_lookup_imap.
  destruct (lookup_lt_is_Some_2 vs (Z.to_nat s) ltac:(lia)) as [v ->].
  cbn. rewrite Z2Nat.id by lia. reflexivity.
Qed.

Lemma Qmax_comp (x x' y y' : Q) :
  (x == x')%Q -> (y == y')%Q -> (Qmax x y == Qmax x' y')%Q.
Proof.
  intros Hx Hy. unfold Qmax.
  destruct (Qle_bool x y) eqn:H1; destruct (Qle_bool x' y') eqn:H2;
    try assumption;
    [ apply Qle_bool_iff in H1 | apply Qle_bool_iff in H2 ];
    [ assert (~ (x' <= y')%Q) by (rewrite <- Qle_bool_iff; congruence)
    | assert (~ (x <= y)%Q) by (rewrite <- Qle_bool_iff; congruence) ];
    lra.
Qed.

Lemma Qmax_lipschitz (x x' y y' B : Q) :
  (Qabs (x - x') <= B)%Q -> (Qabs (y - y') <= B)%Q ->
  (Qabs (Qmax x y - Qmax x' y') <= B)%Q.
Proof.
  intros Hx Hy. apply Qabs_Qle_condition in Hx, Hy.
  apply Qabs_Qle_condition. unfold Qmax.
  destruct (Qle_bool x y) eqn:H1; destruct (Qle_bool x' y') eqn:H2;
    try lra.
  - apply Qle_bool_iff in H1.
    assert (~ (x' <= y')%Q) by (rewrite <- Qle_bool_iff; congruence). lra.
  - apply Qle_bool_iff in H2.
    assert (~ (x <= y)%Q) by (rewrite <- Qle_bool_iff; congruence). lra.
Qed.

Section Folds.
Variables (l : list Z) (f g : Z -> Q).

Lemma fold_Qmax_comp (x x' : Q) :
  (forall a, In a l -> f a == g a)%Q -> (x == x')%Q ->
  (fold_right (fun a acc => Qmax (f a) acc) x l
   == fold_right (fun a acc => Qmax (g a) acc) x' l)%Q.
Proof.
  intros Hfg Hx. induction l as [|a l' IH]; [exact Hx|].
  cbn [fold_right]. apply Qmax_comp.
  - apply Hfg. left. reflexivity.
  - apply IH. intros a' Ha'. apply Hfg. right. exact Ha'.
Qed.

Lemma fold_Qmax_lipschitz (x x' B : Q) :
  (forall a, In a l -> Qabs (f a - g a) <= B)%Q ->
  (Qabs (x - x') <= B)%Q ->
  (Qabs (fold_right (fun a acc => Qmax (f a) acc) x l
         - fold_right (fun a acc => Qmax (g a) acc) x' l) <= B)%Q.
Proof.
  intros Hfg Hx. induction l as [|a l' IH]; [exact Hx|].
  cbn [fold_right]. apply Qmax_lipschitz.
  - apply Hfg. left. reflexivity.
  - apply IH. intros a' Ha'. apply Hfg. right. exact Ha'.
Qed.
End Folds.

Lemma action_value_red_eq (vs : list Q) (a s : Z) :
  (action_value_red vs a s == action_value vs a s)%Q.
Proof.
  unfold action_value_red, action_value. rewrite sumQ_red_eq.
  apply sumQ_ext. intros r _. apply sumQ_red_eq.
Qed.

Lemma optimality_check_spec (vs : list Q) :
  optimality_check vs = true ->
  length vs = state_size /\
  forall s, 0 <= s < 25 -> (vget (bellman_optimality vs) s == 0)%Q.
Proof.
  unfold optimality_check. intros H.
  apply andb_true_iff in H as [Hlen Hrows].
  apply bool_decide_eq_true in Hlen. split; [exact Hlen|].
  intros s Hs. rewrite vget_bellman_optimality by (rewrite Hlen; exact Hs).
  pose proof (forallb_range _ _ Hrows s Hs) as Heq. apply Qeq_bool_eq in Heq.
  rewrite Heq.
  rewrite (fold_Qmax_comp (range n_actions)
             (fun a => action_value_red vs a s)
             (fun a => action_value vs a s)
             (action_value_red vs 0 s) (action_value vs 0 s))
    by (intros; apply action_value_red_eq).
  ring.
Qed.

Lemma optimality_check_v_opt : optimality_check v_opt = true.
Proof. vm_compute. reflexivity. Qed.

(** X9. The optimality equation has an exact solution: at the vector
    [v_opt] (value [10 / (1 - γ^5)] in state A, discounted by the
    distance to A elsewhere, with B and its right neighbour going
    through B) the residual [bellman_optimality] is zero at every
    state. *)
Theorem bellman_optimality_v_opt (s : Z) :
  0 <= s < 25 -> (vget (bellman_optimality v_opt) s == 0)%Q.
Proof. apply optimality_check_spec, optimality_check_v_opt. Qed.

Lemma bellman_optimality_v_opt_witness :
  (vget (bellman_optimality v_opt) 1 == 0)%Q.
Proof. exact (bellman_optimality_v_opt 1 ltac:(lia)). Defined.

Lemma double_weighted_bound (e : Z -> Z -> Q) (d : Z -> Q) (M : Q)
    (R S : list Z) :
  (forall r s', In r R -> In s' S -> 0 <= e s' r)%Q ->
  (sumQ R (fun r => sumQ S (fun s' => e s' r)) == 1)%Q ->
  (forall s', In s' S -> Qabs (d s') <= M)%Q ->
  (Qabs (sumQ R (fun r => sumQ S (fun s' => e s' r * d s'))) <= M)%Q.
Proof.
  intros Hpos Hone Hd.
  apply Qle_trans with (sumQ R (fun r => sumQ S (fun s' => e s' r) * M))%Q.
  - eapply Qle_trans; [apply Qabs_sumQ|].
    apply sumQ_le. intros r Hr.
    apply weighted_sum_bound;
      [intros s' Hs'; apply Hpos; assumption | reflexivity | exact Hd].
  - rewrite sumQ_scale_r, Hone. lra.
Qed.

Lemma entry_check_holds : entry_check p_gridworld = true.
Proof. vm_compute. reflexivity. Qed.

Lemma entry_check_spec (p : tensor) (a s : Z) :
  entry_check p = true ->
  0 <= a < 4 -> 0 <= s < 25 ->
  (slice_sum p a s == 1)%Q /\
  forall r s', In r (range n_rewards) -> In s' (range state_size) ->
               (0 <= entry p s' r a s)%Q.
Proof.
  unfold entry_check. intros H Ha Hs.
  pose proof (forallb_range _ _ (forallb_range _ _ H a Ha) s Hs) as Hc.
  cbv beta in Hc. apply andb_true_iff in Hc as [Hsum Hpos].
  split; [apply Qeq_bool_eq, Hsum|].
  intros r s' Hr Hs'. apply range_spec in Hr, Hs'.
  apply Qle_bool_iff.
  exact (forallb_range _ _ (forallb_range _ _ Hpos r Hr) s' Hs').
Qed.

(** The action values of two value vectors differ by at most [γ] times
    the largest difference of the vectors. *)
Lemma action_value_lipschitz (vs ws : list Q) (a s : Z) (M : Q) :
  0 <= a < 4 -> 0 <= s < 25 ->
  (forall s', In s' (range state_size) -> Qabs (vget vs s' - vget ws s') <= M)%Q ->
  (Qabs (action_value vs a s - action_value ws a s) <= (9 # 10) * M)%Q.
Proof.
  intros Ha Hs HM.
  destruct (entry_check_spec p_gridworld a s entry_check_holds Ha Hs)
    as [Hone Hpos].
  pose proof (double_weighted_bound (fun s' r => entry p_gridworld s' r a s)
                (fun s' => vget vs s' - vget ws s')%Q M
                (range n_rewards) (range state_size) Hpos Hone HM) as Hb.
  assert (Hdiff :
    (action_value vs a s - action_value ws a s
     == (9 # 10) * sumQ (range n_rewards) (fun r =>
                    sumQ (range state_size) (fun s' =>
                      entry p_gridworld s' r a s
                      * (vget vs s' - vget ws s'))))%Q).
  { unfold action_value, γ. rewrite <- sumQ_minus, <- sumQ_scale.
    apply sumQ_ext. intros r _.
    rewrite <- sumQ_minus, <- sumQ_scale.
    apply sumQ_ext. intros s' _. ring. }
  rewrite Hdiff. cbv beta in Hb. revert Hb.
  generalize (sumQ (range n_rewards) (fun r =>
                sumQ (range state_size) (fun s' =>
                  entry p_gridworld s' r a s
                  * (vget vs s' - vget ws s'))))%Q.
  intros T Hb. apply Qabs_Qle_condition in Hb. apply Qabs_Qle_condition. lra.
Qed.

(** X10. The optimality equation has one solution only: if the
    residual [bellman_optimality] vanishes at two vectors of 25 values,
    they agree at every state; so a zero of the residual is [v_opt]. *)
Theorem bellman_optimality_unique (vs ws : list Q) (s : Z) :
  length vs = state_size -> length ws = state_size ->
  (forall s' : Z, 0 <= s' < 25 -> (vget (bellman_optimality vs) s' == 0)%Q) ->
  (forall s' : Z, 0 <= s' < 25 -> (vget (bellman_optimality ws) s' == 0)%Q) ->
  0 <= s < 25 ->
  (vget vs s == vget ws s)%Q.
Proof.
  intros Hlv Hlw Hv Hw Hs.
  cut (vget vs s - vget ws s == 0)%Q; [lra|].
  apply (contraction_zero (range state_size)
           (fun s => vget vs s - vget ws s)%Q (9 # 10));
    [lra | | apply range_spec, Hs].
  clear s Hs. intros s M Hs HM. apply range_spec in Hs.
  pose proof (Hv s Hs) as Hvs. pose proof (Hw s Hs) as Hws.
  rewrite vget_bellman_optimality in Hvs by (rewrite Hlv; exact Hs).
  rewrite vget_bellman_optimality in Hws by (rewrite Hlw; exact Hs).
  pose proof (fold_Qmax_lipschitz (range n_actions)
                (fun a => action_value vs a s) (fun a => action_value ws a s)
                (action_value vs 0 s) (action_value ws 0 s) ((9 # 10) * M)%Q)
    as Hfold.
  cbv beta in Hfold.
  assert (Hmax : (Qabs
    (fold_right (fun a acc => Qmax (action_value vs a s) acc)
       (action_value vs 0 s) (range n_actions)
     - fold_right (fun a acc => Qmax (action_value ws a s) acc)
         (action_value ws 0 s) (range n_actions)) <= (9 # 10) * M)%Q).
  { apply Hfold.
    - intros a Ha. apply range_spec in Ha.
      apply action_value_lipschitz; [exact Ha | exact Hs | exact HM].
    - apply action_value_lipschitz; [lia | exact Hs | exact HM]. }
  clear Hfold. revert Hvs Hws Hmax.
  generalize (fold_right (fun a acc => Qmax (action_value vs a s) acc)
                (action_value vs 0 s) (range n_actions)).
  generalize (fold_right (fun a acc => Qmax (action_value ws a s) acc)
                (action_value ws 0 s) (range n_actions)).
  generalize (vget vs s), (vget ws s).
  intros x y Fw Fv Hvs Hws Hmax.
  apply Qabs_Qle_condition in Hmax. apply Qabs_Qle_condition. lra.
Qed.

Lemma bellman_optimality_unique_witness :
  (vget (map Qred v_opt) 24 == vget v_opt 24)%Q.
Proof.
  refine (bellman_optimality_unique (map Qred v_opt) v_opt 24 eq_refl eq_refl
            _ bellman_optimality_v_opt _); [|lia].
  apply optimality_check_spec. vm_compute. reflexivity.
Defined.

End GridworldMore.

(** ** Blackjack: cards, loops and the initial deal *)

Module BlackjackMore.
Import Py PyFacts Blackjack BlackjackFacts BlackjackDeal.

(** *** The dealer *)

Lemma drawn_S (draws : nat -> Z) (k n : nat) :
  drawn draws k (S n) = draws k + drawn draws (S k) n.
Proof. reflexivity. Qed.

Lemma drawn_snoc (draws : nat -> Z) (k n : nat) :
  drawn draws k (S n) = drawn draws k n + draws (k + n)%nat.
Proof.
  unfold drawn. rewrite seq_S, map_app, foldr_app. cbn.
  generalize (map draws (seq k n)). intros l.
  induction l as [|x l IH]; cbn; [lia|]. rewrite IH. lia.
Qed.

(** X12. What the dealer ends with: the initial value plus the cards
    drawn, at least 17, every shorter run of cards having left the value
    below 17; a dealer who starts at 17 or more draws nothing. *)
Theorem dealer_strategy_result (fuel : nat) (draws : nat -> Z)
    (value_cards : Z) (k : nat) (dv : Z) (k' : nat) :
  dealer_strategy fuel draws value_cards k = Some (dv, k') ->
  exists n : nat,
    k' = (k + n)%nat /\
    dv = value_cards + drawn draws k n /\
    17 <= dv /\
    (forall m : nat, (m < n)%nat -> value_cards + drawn draws k m < 17) /\
    (17 <= value_cards -> n = 0%nat).
Proof.
  revert value_cards k.
  induction fuel as [|fuel IH]; intros v k H; cbn in H;
    destruct (Z.ltb_spec v 17) as [Hlt | Hge]; try discriminate.
  - injection H as <- <-. exists 0%nat.
    repeat split; try lia; unfold drawn; cbn; lia.
  - apply IH in H as (n & -> & -> & Hdv & Hbefore & _).
    exists (S n). rewrite drawn_S.
    repeat split; try lia.
    intros [|m] Hm; [unfold drawn; cbn; lia|].
    rewrite drawn_S. specialize (Hbefore m ltac:(lia)). lia.
  - injection H as <- <-. exists 0%nat.
    repeat split; try lia; unfold drawn; cbn; lia.
Qed.

Lemma dealer_strategy_result_witness :
  exists n : nat,
    3%nat = (1 + n)%nat /\ 19 = 11 + drawn (fun _ => 4) 1 n /\ 17 <= 19.
Proof.
  destruct (dealer_strategy_result 5 (fun _ => 4) 11 1 19 3 eq_refl)
    as (n & H1 & H2 & H3 & _).
  exists n. auto.
Defined.

(** With draws from 0 to 9, a total returned by a dealer who started
    below 17 is between 17 and 25. *)
Lemma dealer_strategy_range (fuel : nat) (draws : nat -> Z)
    (value_cards : Z) (k : nat) (dv : Z) (k' : nat) :
  (forall i, 0 <= draws i <= 9) ->
  value_cards < 17 ->
  dealer_strategy fuel draws value_cards k = Some (dv, k') ->
  17 <= dv <= 25.
Proof.
  intros Hdraws Hv H.
  apply dealer_strategy_result in H as (n & -> & -> & Hdv & Hbefore & _).
  split; [exact Hdv|].
  destruct n as [|n]; [unfold drawn in Hdv; cbn in Hdv; lia|].
  rewrite drawn_snoc. specialize (Hbefore n ltac:(lia)).
  specialize (Hdraws (k + n)%nat). lia.
Qed.

(** X13. Let the draws be values [draw_card] can give (0 to 9) and the
    dealer start below 17. No run of the loop returns a total outside
    17..25; and if every draw is at least 1 the loop does return, within
    [17 - value_cards] iterations, a total between 17 and 25. (With
    draws of 0 it need not return: [zero_draws_never_end].) *)
Theorem dealer_total_range (draws : nat -> Z) (value_cards : Z) (k : nat) :
  (forall i, 0 <= draws i <= 9) ->
  value_cards < 17 ->
  (forall (fuel : nat) (dv : Z) (k' : nat),
      dealer_strategy fuel draws value_cards k = Some (dv, k') ->
      17 <= dv <= 25) /\
  ((forall i, 1 <= draws i) ->
   exists (dv : Z) (k' : nat),
     dealer_strategy (Z.to_nat (17 - value_cards)) draws value_cards k
     = Some (dv, k') /\
     17 <= dv <= 25).
Proof.
  intros Hdraws Hv. split.
  - intros fuel dv k'. apply dealer_strategy_range; assumption.
  - intros Hpos.
    destruct (dealer_strategy_terminates draws Hpos
                (Z.to_nat (17 - value_cards)) value_cards k ltac:(lia))
      as [[dv k'] H].
    exists dv, k'. split; [exact H|].
    apply (dealer_strategy_range _ _ _ _ _ _ Hdraws Hv H).
Qed.

(** A dealer at 11 who draws 4 and 4 stands at 19. *)
Lemma dealer_total_range_witness :
  exists (dv : Z) (k' : nat),
    dealer_strategy 6 (fun _ => 4) 11 1 = Some (dv, k') /\ 17 <= dv <= 25.
Proof.
  refine (proj2 (dealer_total_range (fun _ => 4) 11 1 _ _) _); intros; lia.
Defined.

(** *** The player *)

Lemma hit_loop_run (draws : nat -> Z) (policy : list (list Q))
    (fuel : nat) (g0 g : game) :
  hit_loop fuel draws policy g0 = Some (ok g) ->
  (exists n, hit_run g0 g n) /\
  (21 < player_value_cards g \/ sticks policy (player_value_cards g)).
Proof.
  revert g0.
  induction fuel as [|fuel IH]; intros g0 H; cbn in H;
    destruct (policy_stick policy (player_value_cards g0)) as [stick|] eqn:Hrow;
    try discriminate;
    destruct (Qeq_bool stick 1) eqn:Hone; try discriminate.
  - injection H as <-. split.
    + exists 0%nat. split; cbn; rewrite ?app_nil_r; auto.
    + right. exists stick. split; [exact Hrow | apply Qeq_bool_iff, Hone].
  - injection H as <-. split.
    + exists 0%nat. split; cbn; rewrite ?app_nil_r; auto.
    + right. exists stick. split; [exact Hrow | apply Qeq_bool_iff, Hone].
  - destruct (update_player_card _ _) as [value new_ace].
    set (g' := {| player_value_cards := value |}) in H.
    assert (Hstep : hit_run g0 g' 1).
    { split; subst g'; cbn; try reflexivity; try lia.
      - rewrite length_app. reflexivity.
      - intros ->. reflexivity. }
    destruct (Z.ltb_spec 21 value) as [Hbust | Hnot].
    + injection H as <-. split; [exists 1%nat; exact Hstep|].
      left. subst g'. exact Hbust.
    + apply IH in H as [(n & Hrun) Hend]. split; [|exact Hend].
      exists (S n). destruct Hstep, Hrun. split.
      * lia.
      * rewrite run_reward1, run_reward0, <- app_assoc. reflexivity.
      * rewrite run_action1, run_action0, <- app_assoc. reflexivity.
      * lia.
      * auto.
Qed.

(** X14. The hit loop ends only on a bust or on a hand for which the
    policy marks stick. *)
Theorem hit_loop_exit (draws : nat -> Z) (policy : list (list Q))
    (fuel : nat) (g0 g : game) :
  hit_loop fuel draws policy g0 = Some (ok g) ->
  21 < player_value_cards g \/ sticks policy (player_value_cards g).
Proof. intros H. apply (hit_loop_run _ _ _ _ _ H). Qed.

Lemma hit_loop_exit_witness :
  21 < 23 \/ sticks policy 23.
Proof.
  exact (hit_loop_exit (fun _ => 5) policy 5 (start 13 false)
           {| player_value_cards := 23; has_usable_ace := false;
              hist_reward := [0; 0; 0];
              hist_state := [(13, false); (18, false); (23, false)];
              hist_action := [0; 0; 0]; n_drawn := 2 |} eq_refl).
Defined.

(** X15. The usable ace is kept: a hit loop entered with the flag set
    ends with the flag set. *)
Theorem hit_loop_keeps_usable_ace (draws : nat -> Z) (policy : list (list Q))
    (fuel : nat) (g0 g : game) :
  hit_loop fuel draws policy g0 = Some (ok g) ->
  has_usable_ace g0 = true -> has_usable_ace g = true.
Proof.
  intros H. destruct (hit_loop_run _ _ _ _ _ H) as [(n & Hrun) _].
  apply Hrun.
Qed.

Lemma hit_loop_keeps_usable_ace_witness :
  exists g, hit_loop 5 (fun _ => 3) policy (start 14 true) = Some (ok g) /\
            has_usable_ace g = true.
Proof.
  eexists. split; [reflexivity|].
  exact (hit_loop_keeps_usable_ace (fun _ => 3) policy 5 (start 14 true) _
           eq_refl eq_refl).
Defined.

Lemma hit_loop_bounds (draws : nat -> Z) (policy : list (list Q))
    (fuel : nat) (g0 g : game) :
  (forall i, 0 <= draws i <= 9) ->
  length (hist_state g0) = S (n_drawn g0) ->
  player_value_cards g0 <= 21 ->
  (forall (i : nat) (v : Z) (u : bool),
      (i < n_drawn g0)%nat -> hist_state g0 !! i = Some (v, u) -> v <= 21) ->
  hist_state g0 !! n_drawn g0
  = Some (player_value_cards g0, has_usable_ace g0) ->
  hit_loop fuel draws policy g0 = Some (ok g) ->
  player_value_cards g0 <= player_value_cards g <= 30 /\
  (forall (i : nat) (v : Z) (u : bool),
      (i < n_drawn g)%nat -> hist_state g !! i = Some (v, u) -> v <= 21).
Proof.
  intros Hdraws. revert g0.
  induction fuel as [|fuel IH]; intros g0 Hlen Hpv Hbefore Hlast H;
    cbn in H;
    destruct (policy_stick policy (player_value_cards g0)) as [stick|];
    try discriminate;
    destruct (Qeq_bool stick 1); try discriminate;
    try (injection H as <-; split; [lia | exact Hbefore]).
  pose proof (Hdraws (n_drawn g0)) as Hcard.
  assert (Hnew : player_value_cards g0
                 <= fst (update_player_card (player_value_cards g0)
                           (draws (n_drawn g0))) <= 30).
  { unfold update_player_card.
    destruct ((draws (n_drawn g0) =? 1) && (player_value_cards g0 <=? 10))
      eqn:Hace; cbn [fst].
    - apply andb_true_iff in Hace as [_ Hten]. apply Z.leb_le in Hten. lia.
    - lia. }
  destruct (update_player_card _ _) as [value new_ace]. cbn [fst] in Hnew.
  set (g' := {| player_value_cards := value |}) in H.
  assert (Hbefore' : forall (i : nat) (v : Z) (u : bool),
             (i < n_drawn g')%nat -> hist_state g' !! i = Some (v, u) ->
             v <= 21).
  { subst g'. cbn. intros i v u Hi Hlook.
    destruct (decide (i = n_drawn g0)) as [-> | Hne].
    - rewrite lookup_app_l, Hlast in Hlook by lia.
      injection Hlook as <- _. exact Hpv.
    - rewrite lookup_app_l in Hlook by lia.
      apply (Hbefore i v u); [lia | exact Hlook]. }
  destruct (Z.ltb_spec 21 value) as [Hbust | Hnot].
  - injection H as <-. split; [subst g'; cbn; lia | exact Hbefore'].
  - apply IH in H as [Hv Hall].
    + split; [subst g'; cbn in *; lia | exact Hall].
    + subst g'. cbn. rewrite length_app, Hlen. cbn. lia.
    + subst g'. cbn. exact Hnot.
    + exact Hbefore'.
    + subst g'. cbn. rewrite lookup_app_r by lia.
      rewrite Hlen, Nat.sub_diag. reflexivity.
Qed.

(** X11. With the draws [draw_card] can give (0 to 9), a hit loop
    entered with a hand of at most 21 never lowers the hand and ends, if
    it ends, with a hand of at most 30; every earlier hand recorded in
    [hist_state] is at most 21: only the last card can bust. *)
Theorem hit_loop_hand_bounds (draws : nat -> Z) (policy : list (list Q))
    (fuel : nat) (pv : Z) (ace : bool) (g : game) :
  (forall i, 0 <= draws i <= 9) ->
  pv <= 21 ->
  hit_loop fuel draws policy (start pv ace) = Some (ok g) ->
  pv <= player_value_cards g <= 30 /\
  (forall (i : nat) (v : Z) (u : bool),
      (i < n_drawn g)%nat -> hist_state g !! i = Some (v, u) -> v <= 21).
Proof.
  intros Hdraws Hpv H.
  apply (hit_loop_bounds draws policy fuel (start pv ace) g Hdraws);
    cbn; try reflexivity; try assumption.
  intros i v u Hi. lia.
Qed.

(** From 13 the player draws 8 and busts at 21 + 8 = 29, after a 21
    that, under a policy hitting everywhere, was not the end. *)
Lemma hit_loop_hand_bounds_witness :
  exists g : game,
    hit_loop 5 (fun _ => 8) (replicate 10 [1; 0]%Q) (start 13 false)
    = Some (ok g) /\
    13 <= player_value_cards g <= 30 /\ player_value_cards g = 29.
Proof.
  eexists. split; [reflexivity|]. split; [|reflexivity].
  refine (proj1 (hit_loop_hand_bounds (fun _ => 8) (replicate 10 [1; 0]%Q)
                   5 13 false _ _ _ eq_refl)); intros; lia.
Defined.

(** X16. The history returned by [blackjack] holds a 0 for the start
    and a 0 for each card the player drew, then the final reward: its
    length is the number of cards drawn plus two, and no reward other
    than the last can be non-zero. *)
Theorem blackjack_history (fuel : nat) (draws : nat -> Z) (pv : Z)
    (dealer_cards : list Z) (policy : list (list Q)) (ace : bool)
    (reward : Z) (hist : list Z) :
  blackjack fuel draws pv dealer_cards policy ace
  = Some (ok (ret_pair reward hist)) ->
  exists g : game,
    hit_loop fuel draws policy (start pv ace) = Some (ok g) /\
    hist = replicate (S (n_drawn g)) 0 ++ [reward] /\
    length (hist_state g) = S (n_drawn g) /\
    hist_action g = replicate (S (n_drawn g)) 0.
Proof.
  intros H.
  apply blackjack_inv in H as [[_ Hres] | (_ & g & dv & k & Hhit & _ & Hres)];
    [discriminate Hres|].
  unfold settle in Hres. injection Hres as -> ->.
  exists g. split; [exact Hhit|].
  destruct (hit_loop_run _ _ _ _ _ Hhit) as [(n & Hrun) _].
  destruct Hrun as [Hn Hr Ha Hs _]. cbn in Hn, Hr, Ha, Hs.
  rewrite Hr, Ha, Hs, Hn. repeat split.
Qed.

Lemma blackjack_history_witness :
  exists g : game,
    hit_loop 30 (fun _ => 5) policy (start 13 false) = Some (ok g) /\
    [0; 0; 0; -1] = replicate (S (n_drawn g)) 0 ++ [-1].
Proof.
  destruct (blackjack_history 30 (fun _ => 5) 13 [5; 6] policy false (-1)
              [0; 0; 0; -1] eq_refl) as (g & H1 & H2 & _).
  exists g. split; assumption.
Defined.

(** X17. When the hands are played and the player does not bust, a
    dealer who busts or ends lower than the player gives the reward
    +1. *)
Theorem higher_or_dealer_bust_wins (fuel1 fuel2 fuel : nat) (draws : nat -> Z)
    (pv : Z) (dealer_cards : list Z) (policy : list (list Q)) (ace : bool)
    (g : game) (dv : Z) (k : nat) :
  (fuel1 <= fuel)%nat -> (fuel2 <= fuel)%nat ->
  natural pv dealer_cards = false ->
  hit_loop fuel1 draws policy (start pv ace) = Some (ok g) ->
  dealer_strategy fuel2 draws (foldr Z.add 0 dealer_cards) (n_drawn g)
  = Some (dv, k) ->
  player_value_cards g <= 21 ->
  21 < dv \/ dv < player_value_cards g ->
  blackjack fuel draws pv dealer_cards policy ace
  = Some (ok (ret_pair 1 (hist_reward g ++ [1]))).
Proof.
  intros H1 H2 Hnat Hhit Hdealer Hp Hd.
  rewrite (blackjack_played _ _ _ _ _ _ _ _ _ _ _ H1 H2 Hnat Hhit Hdealer).
  unfold settle, final_reward.
  destruct (Z.ltb_spec 21 (player_value_cards g)); [lia|].
  destruct (Z.ltb_spec 21 dv); [reflexivity|].
  destruct (Z.ltb_spec dv (player_value_cards g)); [reflexivity | lia].
Qed.

(** The player sticks on 20; the dealer goes from 16 to 25. *)
Lemma higher_or_dealer_bust_wins_witness :
  blackjack 30 (fun _ => 9) 20 [10; 6] policy false
  = Some (ok (ret_pair 1 [0; 1])).
Proof.
  refine (higher_or_dealer_bust_wins 0 1 30 (fun _ => 9) 20 [10; 6] policy
            false _ _ _ _ _ eq_refl eq_refl eq_refl _ _); cbn; lia.
Defined.

(** X18. A 21 against a dealer's 21 is a draw when the policy sticks on
    21: no card is drawn and the result is the reward 0 with the
    history [0, 0]. *)
Theorem natural_against_natural (fuel : nat) (draws : nat -> Z)
    (dealer_cards : list Z) (policy : list (list Q)) (ace : bool) :
  foldr Z.add 0 dealer_cards = 21 ->
  sticks policy 21 ->
  blackjack fuel draws 21 dealer_cards policy ace
  = Some (ok (ret_pair 0 [0; 0])).
Proof.
  intros Hd Hstick. unfold blackjack. rewrite Hd. cbn [Z.eqb negb andb].
  rewrite (hit_loop_sticks fuel draws policy (start 21 ace) Hstick).
  cbn [n_drawn start]. destruct fuel; reflexivity.
Qed.

Lemma natural_against_natural_witness :
  blackjack 0 (fun _ => 0) 21 [10; 10; 1] policy true
  = Some (ok (ret_pair 0 [0; 0])).
Proof.
  exact (natural_against_natural 0 (fun _ => 0) [10; 10; 1] policy true
           eq_refl policy_sticks_21).
Defined.

(** *** The policy table out of its documented range *)

(** X19. In a table of ten rows (hands 12 to 21) a hand of 2 to 11
    reads, through a negative index, the row of the hand ten higher;
    a hand below 2 or above 21 raises [IndexError]. *)
Theorem policy_stick_wraps (policy : list (list Q)) (value : Z) :
  length policy = 10%nat ->
  (2 <= value <= 11 ->
   policy_stick policy value = policy_stick policy (value + 10)) /\
  (value < 2 \/ 21 < value -> policy_stick policy value = None).
Proof.
  intros Hlen. unfold policy_stick, item, index. rewrite Hlen.
  change (Z.of_nat 10) with 10. split.
  - intros Hv.
    replace ((0 <=? value - 12) && (value - 12 <? 10)) with false
      by (symmetry; apply andb_false_iff; lia).
    replace ((Z.opp 10 <=? value - 12) && (value - 12 <? 0)) with true
      by (symmetry; apply andb_true_iff; lia).
    replace ((0 <=? value + 10 - 12) && (value + 10 - 12 <? 10))
      with true by (symmetry; apply andb_true_iff; lia).
    cbn [mbind option_bind].
    replace (Z.to_nat (10 + (value - 12)))
      with (Z.to_nat (value + 10 - 12)) by (f_equal; lia).
    reflexivity.
  - intros Hv.
    replace ((0 <=? value - 12) && (value - 12 <? 10)) with false
      by (symmetry; apply andb_false_iff; lia).
    replace ((Z.opp 10 <=? value - 12) && (value - 12 <? 0)) with false
      by (symmetry; apply andb_false_iff; lia).
    reflexivity.
Qed.

(** Under the notebook's policy a hand of 11 is played as a 21: it
    sticks. *)
Lemma policy_stick_wraps_witness :
  policy_stick policy 11 = policy_stick policy 21
  /\ policy_stick policy 22 = None.
Proof.
  destruct (policy_stick_wraps policy 11 eq_refl) as [Hwrap _].
  destruct (policy_stick_wraps policy 22 eq_refl) as [_ Hout].
  split; [apply Hwrap; lia | apply Hout; lia].
Defined.

(** X20. With a table of ten rows, [blackjack] called on a hand above
    21 raises [IndexError] at the first test of the hit loop: it does
    not return the reward -1. *)
Theorem blackjack_above_21_raises (fuel : nat) (draws : nat -> Z) (pv : Z)
    (dealer_cards : list Z) (policy : list (list Q)) (ace : bool) :
  length policy = 10%nat ->
  21 < pv ->
  blackjack fuel draws pv dealer_cards policy ace = Some index_error.
Proof.
  intros Hlen Hpv. unfold blackjack.
  replace (pv =? 21) with false by (symmetry; apply Z.eqb_neq; lia).
  cbn [andb].
  assert (Hrow : policy_stick policy pv = None)
    by (apply (policy_stick_wraps policy pv Hlen); lia).
  destruct fuel; cbn; rewrite Hrow; reflexivity.
Qed.

Lemma blackjack_above_21_raises_witness :
  blackjack 0 (fun _ => 0) 22 [10; 6] policy false = Some index_error.
Proof.
  refine (blackjack_above_21_raises 0 (fun _ => 0) 22 [10; 6] policy false
            eq_refl _). lia.
Defined.

(** *** Termination with card values of at least 1 *)

Lemma dealer_strategy_draws_at_most (fuel : nat) (draws : nat -> Z)
    (value_cards : Z) (k : nat) (dv : Z) (k' : nat) :
  dealer_strategy fuel draws value_cards k = Some (dv, k') ->
  (k <= k' <= k + fuel)%nat.
Proof.
  revert value_cards k.
  induction fuel as [|fuel IH]; intros v k H; cbn in H;
    destruct (v <? 17); try discriminate;
    try (injection H as <- <-; lia).
  apply IH in H. lia.
Qed.

(** X21. If every card is worth at least 1, the dealer's loop ends
    within [17 - value_cards] iterations: run with that much fuel it
    returns a total of at least 17 after at most that many cards. *)
Theorem dealer_ends (draws : nat -> Z) (value_cards : Z) (k : nat) :
  (forall i, 1 <= draws i) ->
  exists (dv : Z) (k' : nat),
    dealer_strategy (Z.to_nat (17 - value_cards)) draws value_cards k
    = Some (dv, k') /\
    17 <= dv /\
    (k <= k' <= k + Z.to_nat (17 - value_cards))%nat.
Proof.
  intros Hpos.
  destruct (dealer_strategy_terminates draws Hpos
              (Z.to_nat (17 - value_cards)) value_cards k ltac:(lia))
    as [[dv k'] H].
  exists dv, k'. split; [exact H|]. split.
  - apply dealer_strategy_result in H as (n & _ & _ & Hdv & _). exact Hdv.
  - apply (dealer_strategy_draws_at_most _ _ _ _ _ _ H).
Qed.

Lemma dealer_ends_witness :
  exists (dv : Z) (k' : nat),
    dealer_strategy 12 (fun _ => 1) 5 0 = Some (dv, k') /\ 17 <= dv.
Proof.
  destruct (dealer_ends (fun _ => 1) 5 0 ltac:(intros; lia))
    as (dv & k' & H & Hdv & _).
  exists dv, k'. split; assumption.
Defined.

(** X22. If every card is worth at least 1, the player's loop entered
    with a hand of at most 21 ends within [22 - player_value_cards]
    iterations, by a stick, a bust or an [IndexError] of the table. *)
Theorem player_ends (draws : nat -> Z) (policy : list (list Q))
    (pv : Z) (ace : bool) :
  (forall i, 1 <= draws i) ->
  pv <= 21 ->
  exists res,
    hit_loop (Z.to_nat (22 - pv)) draws policy (start pv ace) = Some res.
Proof.
  intros Hpos Hpv.
  apply (hit_loop_terminates draws policy Hpos); cbn; lia.
Qed.

Lemma player_ends_witness :
  exists res, hit_loop 10 (fun _ => 1) policy (start 12 false) = Some res.
Proof.
  refine (player_ends (fun _ => 1) policy 12 false _ _); intros; lia.
Defined.

(** X23. If every card is worth at least 1, a play of [blackjack] ends:
    with enough fuel it returns a value or raises [IndexError]. *)
Theorem play_ends (draws : nat -> Z) (pv : Z) (dealer_cards : list Z)
    (policy : list (list Q)) (ace : bool) :
  (forall i, 1 <= draws i) ->
  exists fuel res,
    blackjack fuel draws pv dealer_cards policy ace = Some res.
Proof. apply blackjack_terminates. Qed.

Lemma play_ends_witness :
  exists fuel res, blackjack fuel (fun _ => 1) 12 [2; 3] policy false = Some res.
Proof.
  refine (play_ends (fun _ => 1) 12 [2; 3] policy false _). intros; lia.
Defined.

(** *** The initial deal *)

Section Deal.
Context {key : Type}.
Variable split : key -> key * key.
Variable choice : key -> nat -> nat -> Z.

(** The loop of the deal ends within [12 - value] iterations, and what
    it returns depends on the one card its key draws: a hand of 12 or
    more is left alone; a hand of at most 10 with the index 1 drawn gets
    11 and the ace flag, once; any other hand is raised to 12 one by
    one. *)
Lemma init_loop_closed (fuel : nat) (value : Z) (ace : bool) (k : key) :
  1 <= value ->
  12 - value <= Z.of_nat fuel ->
  init_loop choice fuel value ace k
  = Some (init_loop_value value ace (choice k 1 0)).
Proof.
  revert value ace.
  induction fuel as [|fuel IH]; intros value ace Hv Hfuel;
    unfold init_loop_value; cbn;
    destruct (Z.ltb_spec value 12) as [Hlt | Hge];
    destruct (Z.leb_spec 12 value) as [Hle | Hgt]; try lia;
    try reflexivity.
  destruct ((value <=? 10) && (choice k 1 0 =? 1)) eqn:Hace;
    cbv beta iota zeta.
  - apply andb_true_iff in Hace as [Hten _]. apply Z.leb_le in Hten.
    rewrite IH by lia. unfold init_loop_value.
    destruct (Z.leb_spec 12 (value + 11)); [|lia].
    rewrite orb_true_r. reflexivity.
  - rewrite IH by lia. unfold init_loop_value. rewrite orb_false_r.
    destruct (Z.leb_spec 12 (value + 1)) as [H12 | H12].
    + replace (value + 1) with 12 by lia. reflexivity.
    + destruct (Z.leb_spec (value + 1) 10) as [H10 | H10]; [|reflexivity].
      apply andb_false_iff in Hace as [Hace | Hace].
      * apply Z.leb_gt in Hace. lia.
      * rewrite Hace. reflexivity.
Qed.

Lemma init_loop_value_range (value : Z) (ace : bool) (card : Z) :
  1 <= value <= 21 ->
  12 <= fst (init_loop_value value ace card) <= 21.
Proof.
  intros Hv. unfold init_loop_value.
  destruct (Z.leb_spec 12 value); [cbn; lia|].
  destruct (Z.leb_spec value 10); destruct (card =? 1); cbn; lia.
Qed.

Hypothesis choice_range : forall k n i, 0 <= choice k n i <= 9.

(** X24. Whatever the generator draws, [init_player_state] ends within
    ten iterations of its loop. It deals two cards [c0] and [c1] valued
    1 to 10; with [v0] their sum, plus 10 if one of them is an ace, and
    [c] the one index the key of the loop draws, it returns [v0] if this
    is at least 12, [v0 + 11] with a usable ace if [v0 <= 10] and [c] is
    1, and 12 otherwise (every iteration draws the same card). The value
    returned is between 12 and 21, the range of the rows of the policy
    table. *)
Theorem init_player_state_deals (k : key) :
  let c0 := choice k 2 0 + 1 in
  let c1 := choice k 2 1 + 1 in
  let ace0 := (c0 =? 1) || (c1 =? 1) in
  let v0 := c0 + c1 + 10 * Z.b2z ace0 in
  let result := init_loop_value v0 ace0 (choice (snd (split k)) 1 0) in
  init_player_state split choice 10 k
  = Some ([c0; c1], fst result, snd result) /\
  1 <= c0 <= 10 /\ 1 <= c1 <= 10 /\
  12 <= fst result <= 21.
Proof.
  cbv zeta.
  pose proof (choice_range k 2 0) as H0. pose proof (choice_range k 2 1) as H1.
  unfold init_player_state, draw_cards. cbn [seq map].
  set (c0 := choice k 2 0 + 1) in *. set (c1 := choice k 2 1 + 1) in *.
  change (default 0 (item [c0; c1] 0)) with c0.
  change (default 0 (item [c0; c1] 1)) with c1.
  change (foldr Z.add 0 [c0; c1]) with (c0 + (c1 + 0)).
  rewrite Z.add_0_r.
  set (ace0 := (c0 =? 1) || (c1 =? 1)).
  assert (Hv0 : 2 <= c0 + c1 + 10 * Z.b2z ace0 <= 21).
  { subst ace0. destruct (Z.eqb_spec c0 1); destruct (Z.eqb_spec c1 1);
      cbn; lia. }
  rewrite init_loop_closed by lia.
  cbn [mbind option_bind].
  destruct (init_loop_value _ _ _) as [v a] eqn:Hres.
  split; [reflexivity|]. split; [lia|]. split; [lia|].
  change v with (fst (v, a)). rewrite <- Hres.
  apply init_loop_value_range. lia.
Qed.

(** X25. Whatever the generator draws, [init_game] returns a player
    hand between 12 and 21, an ace flag 0 or 1, a dealer card between 1
    and 10 and a dealer hand between 12 and 21; the player's hand then
    has a row in every policy table of ten rows of two entries, so the
    first test of the hit loop of [blackjack] does not raise. *)
Theorem init_game_deals (k : key) :
  exists value_player ace dealer_card value_dealer,
    init_game split choice 10 k
    = Some ([value_player; ace; dealer_card], value_dealer) /\
    12 <= value_player <= 21 /\
    (ace = 0 \/ ace = 1) /\
    1 <= dealer_card <= 10 /\
    12 <= value_dealer <= 21 /\
    forall policy : list (list Q),
      length policy = 10%nat ->
      Forall (fun row => length row = 2%nat) policy ->
      exists stick, policy_stick policy value_player = Some stick.
Proof.
  unfold init_game. destruct (split k) as [key_player key_dealer].
  destruct (init_player_state_deals key_player) as (-> & _ & _ & Hvp).
  destruct (init_player_state_deals key_dealer) as (-> & Hd0 & _ & Hvd).
  cbn [mbind option_bind].
  set (vp := fst (init_loop_value _ _ (choice (snd (split key_player)) 1 0)))
    in *.
  set (ap := snd (init_loop_value _ _ (choice (snd (split key_player)) 1 0))).
  set (vd := fst (init_loop_value _ _ (choice (snd (split key_dealer)) 1 0)))
    in *.
  exists vp, (Z.b2z ap), (choice key_dealer 2 0 + 1), vd.
  split; [reflexivity|].
  repeat split; try lia.
  - destruct ap; auto.
  - intros policy Hlen Hrows. unfold policy_stick, item, index.
    rewrite Hlen.
    replace ((0 <=? vp - 12) && (vp - 12 <? Z.of_nat 10)) with true
      by (symmetry; apply andb_true_iff; split;
          [apply Z.leb_le | apply Z.ltb_lt]; cbn; lia).
    cbn [mbind option_bind].
    destruct (lookup_lt_is_Some_2 policy (Z.to_nat (vp - 12)) ltac:(lia))
      as [row Hrow].
    rewrite Hrow. cbn [mbind option_bind].
    rewrite Forall_forall in Hrows.
    pose proof (Hrows row (list_elem_of_lookup_2 _ _ _ Hrow)) as Hl.
    destruct row as [|x [|y [|z row]]]; try discriminate Hl.
    cbn. eauto.
Qed.

End Deal.

(** A generator that deals two 3s and then draws the index 1: the loop
    is entered at 6 and the drawn card is counted as a usable ace. *)
Lemma init_player_state_deals_witness :
  init_player_state (fun k : nat => (k, S k))
    (fun _ n _ => match n with 2%nat => 2 | _ => 1 end) 10 0%nat
  = Some ([3; 3], 17, true).
Proof.
  refine (proj1 (init_player_state_deals (fun k : nat => (k, S k))
                   (fun _ n _ => match n with 2%nat => 2 | _ => 1 end)
                   _ 0%nat)).
  intros k [|[|[|n]]] i; lia.
Defined.

(** A generator that always draws the index 2 deals two 3s to each side;
    both loops are entered at 6 and add 1 six times. *)
Lemma init_game_deals_witness :
  exists value_player ace dealer_card value_dealer,
    init_game (fun k : nat => (k, S k)) (fun _ _ _ => 2) 10 0%nat
    = Some ([value_player; ace; dealer_card], value_dealer) /\
    value_player = 12 /\ ace = 0 /\ dealer_card = 3 /\ value_dealer = 12.
Proof.
  destruct (init_game_deals (fun k : nat => (k, S k))
              (fun _ _ _ => 2) ltac:(intros; lia) 0%nat)
    as (vp & a & c & vd & H & _).
  exists vp, a, c, vd. split; [exact H|].
  injection H as <- <- <- <-. repeat split.
Defined.

End BlackjackMore.
